(** * state-with-deps: a state hook with dependency tracking

    A shallow embedding of [useStateWithDeps] (both variants found in the
    repository), of the getter objects built on top of it
    ([useDataWithDepsTracking], [useStarterPokemon]) and of the unmount
    clean-up, followed by the properties of the read / write / notify
    protocol; then of [useConstant] and of the effects of
    [useDataWithDepsTracking] and of the two [useStarterPokemon], with the
    properties of the hooks as their callers use them.

    React itself is not modelled.  What the hook keeps in refs is threaded
    explicitly: [stateRef.current], [stateDependenciesRef.current],
    [unmounted.current], and a counter of the calls made to [rerender]. *)

From Stdlib Require Import PrimFloat.
From stdpp Require Import gmap strings list fin_maps.

(** ** JavaScript values *)

(** Field values are [unknown] on the TypeScript side.  Primitives are kept
    apart from heap-allocated values, because [!==] compares the former by
    value and the latter by allocation. *)
Inductive value :=
| VUndefined
| VNull
| VBool (b : bool)
| VNum (n : float)               (* IEEE 754 double *)
| VStr (s : string)
| VObj (a : N)                   (* object, array or closure, by address *)
| VBuiltin (name : string).      (* intrinsic object, by its name *)

(** [x === y] *)
Definition strict_eq (x y : value) : bool :=
  match x, y with
  | VUndefined, VUndefined => true
  | VNull, VNull => true
  | VBool a, VBool b => bool_decide (a = b)
  | VNum a, VNum b => PrimFloat.eqb a b
  | VStr a, VStr b => bool_decide (a = b)
  | VObj a, VObj b => bool_decide (a = b)
  | VBuiltin a, VBuiltin b => bool_decide (a = b)
  | _, _ => false
  end.

(** [x !== y] *)
Definition strict_neq (x y : value) : bool := negb (strict_eq x y).

(** [ToBoolean], as applied by [if (...)]. *)
Definition truthy (x : value) : bool :=
  match x with
  | VUndefined | VNull => false
  | VBool b => b
  | VNum n => negb (PrimFloat.is_zero n || PrimFloat.is_nan n)
  | VStr s => negb (bool_decide (s = ""))
  | VObj _ | VBuiltin _ => true
  end.

(** ** Plain objects *)

(** The state, the dependency flags and the payload are plain objects: own
    enumerable data properties on top of [Object.prototype].  Own properties
    are a finite map; what every such object inherits is the table below.
    Its entries are not enumerable, so [for ... in] never yields them, but a
    property read that misses the own properties finds them. *)
Definition Object_prototype : gmap string value :=
  list_to_map
    [ ("constructor", VBuiltin "Object");
      ("hasOwnProperty", VBuiltin "Object.prototype.hasOwnProperty");
      ("isPrototypeOf", VBuiltin "Object.prototype.isPrototypeOf");
      ("propertyIsEnumerable", VBuiltin "Object.prototype.propertyIsEnumerable");
      ("toLocaleString", VBuiltin "Object.prototype.toLocaleString");
      ("toString", VBuiltin "Object.prototype.toString");
      ("valueOf", VBuiltin "Object.prototype.valueOf");
      ("__defineGetter__", VBuiltin "Object.prototype.__defineGetter__");
      ("__defineSetter__", VBuiltin "Object.prototype.__defineSetter__");
      ("__lookupGetter__", VBuiltin "Object.prototype.__lookupGetter__");
      ("__lookupSetter__", VBuiltin "Object.prototype.__lookupSetter__");
      ("__proto__", VBuiltin "Object.prototype") ].

(** [o[k]] as an r-value. *)
Definition js_get (o : gmap string value) (k : string) : value :=
  match o !! k with
  | Some v => v
  | None => default VUndefined (Object_prototype !! k)
  end.

(** [deps[k]] as an r-value; the own entries are booleans. *)
Definition dep_get (deps : gmap string bool) (k : string) : value :=
  js_get (VBool <$> deps) k.

(** What the setter of [__proto__] ignores: a value that is neither an
    object nor [null]. *)
Definition is_primitive (v : value) : bool :=
  match v with
  | VNull | VObj _ | VBuiltin _ => false
  | _ => true
  end.

(** [o[k] = v] on a plain, extensible object: the own properties it
    leaves.  It defines or overwrites the own property [k], but for
    [__proto__] where that is no own key: the assignment then runs the
    setter inherited from [Object.prototype], which defines nothing.  The
    setter ignores a primitive; given an object or [null] it replaces the
    prototype of [o], or throws on a cycle, and from there on the embedding
    does not follow [o] (see [no_prototype_write], [setState_outcome]). *)
Definition js_set {A : Type} (o : gmap string A) (k : string) (v : A)
  : gmap string A :=
  if bool_decide (k = "__proto__") && bool_decide (o !! k = None) then o
  else <[k := v]> o.

(** [for (const k in o)], each key paired with [o[k]].  The keys come in
    the order of the map rather than in insertion order; the loop of
    [setState] does not depend on it ([setState_loop_Permutation]). *)
Definition for_in (o : gmap string value) : list (string * value) :=
  map_to_list o.

(** [Object.keys(o)] *)
Definition Object_keys (o : gmap string value) : list string :=
  (map_to_list o).*1.

(** ** useStateWithDeps, the variant that owns its [unmounted] ref *)

Record container := Container {
  stateRef : gmap string value;             (* stateRef.current *)
  stateDependenciesRef : gmap string bool;  (* stateDependenciesRef.current *)
  unmounted : bool;                         (* unmounted.current *)
  rerenders : nat                           (* calls of rerender so far *)
}.

(** The initial value of [stateDependenciesRef]:
    [Object.keys(stateRef.current).reduce((prev, curr) =>
       ({ ...prev, [curr]: false }), {})]. *)
Definition initial_dependencies (initialState : gmap string value)
  : gmap string bool :=
  foldl (λ prev curr, <[curr := false]> prev) ∅ (Object_keys initialState).

Definition useStateWithDeps (initialState : gmap string value) : container :=
  {| stateRef := initialState;
     stateDependenciesRef := initial_dependencies initialState;
     unmounted := false;
     rerenders := 0 |}.

(** One turn of the loop in [setState], on the pair
    [(currentState, shouldRerender)]. *)
Definition setState_body (deps : gmap string bool)
    (acc : gmap string value * bool) (kv : string * value)
  : gmap string value * bool :=
  let '(currentState, shouldRerender) := acc in
  let '(k, v) := kv in
  if strict_neq (js_get currentState k) v then
    (js_set currentState k v,
     if truthy (dep_get deps k) then true else shouldRerender)
  else (currentState, shouldRerender).

Definition setState_loop (deps : gmap string bool)
    (currentState : gmap string value) (entries : list (string * value))
  : gmap string value * bool :=
  foldl (setState_body deps) (currentState, false) entries.

Definition setState (payload : gmap string value) (c : container) : container :=
  let '(currentState, shouldRerender) :=
    setState_loop (stateDependenciesRef c) (stateRef c) (for_in payload) in
  {| stateRef := currentState;
     stateDependenciesRef := stateDependenciesRef c;
     unmounted := unmounted c;
     rerenders :=
       if shouldRerender && negb (unmounted c)
       then S (rerenders c) else rerenders c |}.

(** The clean-up of the hook's effect: [unmounted.current = true]. *)
Definition unmount (c : container) : container :=
  {| stateRef := stateRef c;
     stateDependenciesRef := stateDependenciesRef c;
     unmounted := true;
     rerenders := rerenders c |}.

(** A getter of the objects returned by [useDataWithDepsTracking] and
    [useStarterPokemon]:
    [get f() { stateDependencies.f = true; return stateRef.current.f; }]. *)
Definition getter (f : string) (c : container) : container * value :=
  ({| stateRef := stateRef c;
      stateDependenciesRef := <[f := true]> (stateDependenciesRef c);
      unmounted := unmounted c;
      rerenders := rerenders c |},
   js_get (stateRef c) f).

(** What a caller can do with a container. *)
Inductive operation :=
| Read (f : string)
| Set_ (payload : gmap string value)
| Unmount.

Definition perform (c : container) (o : operation) : container :=
  match o with
  | Read f => (getter f c).1
  | Set_ payload => setState payload c
  | Unmount => unmount c
  end.

Definition run (ops : list operation) (c : container) : container :=
  foldl perform c ops.

(** ** useStateWithDeps, the variant that is handed [unmountedRef] *)

Module ExternalRef.

Record hook := Hook {
  stateRef : gmap string value;
  stateDependenciesRef : gmap string bool;
  rerenders : nat
}.

(** [for (const key in state) { deps[key] = false; }], [deps] starting as
    [{}]; the state is a plain object, which inherits no enumerable key. *)
Definition initStateDepsRef (state : gmap string value) : gmap string bool :=
  foldl (λ deps kv, js_set deps kv.1 false) ∅ (for_in state).

Definition useStateWithDeps (state : gmap string value) : hook :=
  {| stateRef := state;
     stateDependenciesRef := initStateDepsRef state;
     rerenders := 0 |}.

Fixpoint setState_loop (deps : gmap string bool)
    (entries : list (string * value))
    (currentState : gmap string value) (shouldRerender : bool)
  : gmap string value * bool :=
  match entries with
  | [] => (currentState, shouldRerender)
  | (k, v) :: rest =>
      if strict_neq (js_get currentState k) v then
        setState_loop deps rest (js_set currentState k v)
          (if truthy (dep_get deps k) then true else shouldRerender)
      else setState_loop deps rest currentState shouldRerender
  end.

(** [unmountedRef] is the content of the caller's ref at the time of the
    call. *)
Definition setState (unmountedRef : bool) (payload : gmap string value)
    (h : hook) : hook :=
  let '(currentState, shouldRerender) :=
    setState_loop (stateDependenciesRef h) (for_in payload) (stateRef h) false in
  {| stateRef := currentState;
     stateDependenciesRef := stateDependenciesRef h;
     rerenders :=
       if shouldRerender && negb unmountedRef
       then S (rerenders h) else rerenders h |}.

End ExternalRef.

(** ** Predicates on a call of setState *)

(** Some field the consumer reads has been given a new value. *)
Definition tracked_change (st : gmap string value) (deps : gmap string bool)
    (payload : gmap string value) : Prop :=
  ∃ k v, payload !! k = Some v ∧ deps !! k = Some true
         ∧ strict_neq (js_get st k) v = true.

(** The test the code makes: [deps[k]] is truthy for a key it has written. *)
Definition notify_worthy (st : gmap string value) (deps : gmap string bool)
    (payload : gmap string value) : Prop :=
  ∃ k v, payload !! k = Some v ∧ strict_neq (js_get st k) v = true
         ∧ truthy (dep_get deps k) = true.

(** [k] is not an own key of [deps], and [deps[k]] finds it in
    [Object.prototype]. *)
Definition inherited_key (deps : gmap string bool) (k : string) : bool :=
  match deps !! k, Object_prototype !! k with
  | None, Some _ => true
  | _, _ => false
  end.

(** No key of the payload is an [inherited_key]. *)
Definition no_inherited_key (deps : gmap string bool)
    (payload : gmap string value) : bool :=
  forallb (λ kv, negb (inherited_key deps kv.1)) (for_in payload).

(** [k] is one of the keys the dependency flags were built from. *)
Definition is_field (deps : gmap string bool) (k : string) : bool :=
  match deps !! k with Some _ => true | None => false end.

(** The operation respects the types of the hook: a getter exists for the
    fields only, and a [Partial<State>] has keys of [State] only. *)
Definition within_fields (deps : gmap string bool) (o : operation) : bool :=
  match o with
  | Read f => is_field deps f
  | Set_ payload => forallb (λ kv, is_field deps kv.1) (for_in payload)
  | Unmount => true
  end.

(** The payload has no own key [__proto__] holding an object or [null]:
    no call can reach the setter of [Object.prototype] with something it
    acts upon, so the state keeps its prototype. *)
Definition no_prototype_write (payload : gmap string value) : bool :=
  match payload !! "__proto__" with
  | Some v => is_primitive v
  | None => true
  end.

(** [no_prototype_write] for the payloads of a list of operations. *)
Definition keeps_prototype (o : operation) : bool :=
  match o with
  | Set_ payload => no_prototype_write payload
  | _ => true
  end.

(** ** How a call of setState ends *)

Inductive outcome :=
| Returns (c : container)      (* normally, leaving the container [c] *)
| Throws                       (* with a TypeError *)
| ReplacesPrototype.           (* having replaced the state's prototype *)




(** Every entry of the payload is [===] to what the state gives for its
    key. *)
Definition all_unchanged (st : gmap string value)
    (payload : gmap string value) : bool :=
  forallb (λ kv, strict_eq (js_get st kv.1) kv.2) (for_in payload).

(** Every value of the payload is [===] to itself: none is [NaN]. *)
Definition self_equal (payload : gmap string value) : bool :=
  forallb (λ kv, strict_eq kv.2 kv.2) (for_in payload).

(** Some operation of [ops] is a read through the getter of [k]. *)
Definition was_read (k : string) (ops : list operation) : bool :=
  existsb (λ o, match o with Read f => bool_decide (f = k) | _ => false end)
    ops.

(** Every key of the payload is a field that no operation of [ops] read. *)
Definition only_unread_fields (initialState : gmap string value)
    (ops : list operation) (payload : gmap string value) : bool :=
  forallb (λ kv, is_field (initial_dependencies initialState) kv.1
                 && negb (was_read kv.1 ops))
    (for_in payload).

(** ** useConstant *)

(** [init] may have effects: it runs in a world [W] and returns its result
    with the world it leaves.  [ref] is [ref.current] as the previous render
    left it, [null] at mount.  The result is the value returned,
    [ref.current] after the call, and the world. *)
Definition useConstant {W : Type} (init : W → value * W)
    (ref : value) (w : W) : value * value * W :=
  if strict_eq ref VNull then
    let '(v, w') := init w in (v, v, w')
  else (ref, ref, w).

(** Successive renders of one component, each passing its own [init]. *)
Fixpoint useConstant_renders {W : Type} (inits : list (W → value * W))
    (ref : value) (w : W) : list value * value * W :=
  match inits with
  | [] => ([], ref, w)
  | init :: rest =>
      let '(v, ref', w') := useConstant init ref w in
      let '(vs, ref'', w'') := useConstant_renders rest ref' w' in
      (v :: vs, ref'', w'')
  end.

(** ** useDataWithDepsTracking *)

(** A count as a double; exact below 2^53. *)
Fixpoint float_of_nat (n : nat) : float :=
  match n with
  | O => 0
  | S n => float_of_nat n + 1
  end.

(** A label is written as a string literal, which holds its UTF-8 bytes;
    [split("")] cuts the label into UTF-16 code units.  A byte that starts
    a character of one to three bytes stands for one unit, one that starts
    a character of four bytes for two, a continuation byte for none. *)
Definition utf16_units (b : Ascii.ascii) : nat :=
  let n := Ascii.nat_of_ascii b in
  if n <? 128 then 1 else if n <? 192 then 0 else if n <? 240 then 1 else 2.

Fixpoint utf16_length (label : string) : nat :=
  match label with
  | EmptyString => 0
  | String b rest => utf16_units b + utf16_length rest
  end.

(** [label.split("").length] *)
Definition length_of (label : string) : float :=
  float_of_nat (utf16_length label).

(** [label.split("")] allocates an array; [next] is the first free address.
    Only the identity and the length of the array matter to the hook. *)
Definition split (label : string) (next : N) : N * float * N :=
  (next, length_of label, N.succ next).

(** The call [useStateWithDeps({ data: label.split(""), length: 0 })] of
    the first render.  Later renders allocate an array too, which [useRef]
    drops; those are left out. *)
Definition useDataWithDepsTracking (label : string) (next : N)
  : container * N :=
  let '(data, _, next') := split label next in
  (useStateWithDeps (<["data" := VObj data]> (<["length" := VNum 0]> ∅)),
   next').

(** The effect, run after the first render and after every render that
    changed [label]:
    [const data = label.split(""); setState({ data, length: data.length })]. *)
Definition useDataWithDepsTracking_effect (label : string)
    (cn : container * N) : container * N :=
  let '(data, length, next') := split label cn.2 in
  (setState (<["data" := VObj data]> (<["length" := VNum length]> ∅)) cn.1,
   next').

(** ** useStarterPokemon, with guarded effects *)

Module StarterPokemon.

Definition initialState : gmap string value :=
  <["bulbasaur" := VNull]>
    (<["charmander" := VNull]> (<["squirtle" := VNull]> ∅)).

Definition starters : list string := ["bulbasaur"; "charmander"; "squirtle"].

(** How the promise of [fetcher] ends; [aborted] is
    [controller.signal.aborted] as the [catch] handler reads it. *)
Inductive outcome :=
| Resolved (data : value)
| Rejected (aborted : bool).

(** [if (!stateDependencies.f) return;] lets the effect go on to fetch. *)
Definition effect_fetches (f : string) (c : container) : bool :=
  truthy (dep_get (stateDependenciesRef c) f).

(** The fetches the three effects start after the first render. *)
Definition fetches_started (c : container) : list string :=
  List.filter (λ f, effect_fetches f c) starters.

(** [.then((data) => setState({ f: data }))
     .catch((e) => { if (controller.signal.aborted) return;
                     setState({ f: null }); })] *)
Definition settle (f : string) (o : outcome) (c : container) : container :=
  match o with
  | Resolved data => setState {[f := data]} c
  | Rejected true => c
  | Rejected false => setState {[f := VNull]} c
  end.

Definition settle_all (l : list (string * outcome)) (c : container)
  : container :=
  foldl (λ c fo, settle fo.1 fo.2 c) c l.

End StarterPokemon.

(** ** App.tsx: useStarterPokemon on the variant handed [unmountedRef] *)

Module App.

(** [get f() { stateDependencies.f = true; return stateRef.current.f; }] *)
Definition getter (f : string) (h : ExternalRef.hook)
  : ExternalRef.hook * value :=
  ({| ExternalRef.stateRef := ExternalRef.stateRef h;
      ExternalRef.stateDependenciesRef :=
        <[f := true]> (ExternalRef.stateDependenciesRef h);
      ExternalRef.rerenders := ExternalRef.rerenders h |},
   js_get (ExternalRef.stateRef h) f).

(** The hook after the first render of [App], which destructures
    [bulbasaur] only. *)
Definition first_render : ExternalRef.hook :=
  (getter "bulbasaur"
     (ExternalRef.useStateWithDeps StarterPokemon.initialState)).1.

(** The same handlers as above; here every effect fetches.  [unmountedRef]
    is the content of [unmounted] when the promise settles. *)
Definition settle (unmountedRef : bool) (f : string)
    (o : StarterPokemon.outcome) (h : ExternalRef.hook) : ExternalRef.hook :=
  match o with
  | StarterPokemon.Resolved data =>
      ExternalRef.setState unmountedRef {[f := data]} h
  | StarterPokemon.Rejected true => h
  | StarterPokemon.Rejected false =>
      ExternalRef.setState unmountedRef {[f := VNull]} h
  end.

Definition settle_all (l : list (bool * string * StarterPokemon.outcome))
    (h : ExternalRef.hook) : ExternalRef.hook :=
  foldl (λ h s, settle s.1.1 s.1.2 s.2 h) h l.

(** The fetch of [bulbasaur] resolved, with something other than [null],
    while the component was mounted. *)
Definition bulbasaur_arrived (s : bool * string * StarterPokemon.outcome)
  : bool :=
  match s with
  | (false, f, StarterPokemon.Resolved data) =>
      bool_decide (f = "bulbasaur") && strict_neq VNull data
  | _ => false
  end.

End App.

(** ** The scenarios of the test-suite and of the README *)

Definition data_length (data : N) (length : float) : gmap string value :=
  <["data" := VObj data]> (<["length" := VNum length]> ∅).

Example NaN_differs_from_itself :
  strict_neq (VNum nan) (VNum nan) = true
  ∧ strict_neq (VNum 0) (VNum (-0)) = false
  ∧ strict_neq (VObj 1) (VObj 2) = true.
Proof. vm_compute. done. Qed.

Example length_of_counts_code_units :
  length_of "12345" = 5%float ∧ length_of "é" = 1%float
  ∧ length_of "€" = 1%float ∧ length_of "😀" = 2%float.
Proof. vm_compute. done. Qed.

Example scenario_untracked_data :
  let c := (getter "length" (useStateWithDeps (data_length 1 1))).1 in
  rerenders (setState (data_length 2 1) c) = 0
  ∧ stateRef (setState (data_length 2 1) c) !! "data" = Some (VObj 2).
Proof. vm_compute. done. Qed.

Example scenario_tracked_length :
  let c := (getter "length" (useStateWithDeps (data_length 1 1))).1 in
  rerenders (run [Set_ (data_length 2 1); Set_ (data_length 3 1)] c) = 0
  ∧ rerenders (run [Set_ (data_length 2 1); Set_ (data_length 3 1);
                    Set_ (data_length 4 0)] c) = 1.
Proof. vm_compute. done. Qed.

Example scenario_batched :
  let c := (getter "data" (getter "length"
             (useStateWithDeps (data_length 1 1))).1).1 in
  rerenders (setState (data_length 2 5) c) = 1.
Proof. vm_compute. done. Qed.

Example scenario_after_unmount :
  let c := unmount (getter "length" (useStateWithDeps (data_length 1 1))).1 in
  rerenders (setState (data_length 2 5) c) = 0
  ∧ stateRef (setState (data_length 2 5) c) !! "length" = Some (VNum 5).
Proof. vm_compute. done. Qed.

(** ** Property assignment *)

Lemma js_set_lookup {A : Type} (o : gmap string A) k v :
  js_set o k v !! k
  = if bool_decide (k = "__proto__") && bool_decide (o !! k = None)
    then None else Some v.
Proof.
  unfold js_set.
  destruct (bool_decide (k = "__proto__") && bool_decide (o !! k = None))
    eqn:E; [|apply lookup_insert_eq].
  apply andb_true_iff in E as [_ E]. by apply bool_decide_eq_true in E.
Qed.

Lemma js_set_lookup_ne {A : Type} (o : gmap string A) k' k v :
  k' ≠ k → js_set o k' v !! k = o !! k.
Proof.
  intros Hne. unfold js_set.
  destruct (_ && _); [done|by apply lookup_insert_ne].
Qed.

Lemma js_set_lookup_own {A : Type} (o : gmap string A) k v :
  k ≠ "__proto__" ∨ is_Some (o !! k) → js_set o k v !! k = Some v.
Proof.
  intros H. rewrite js_set_lookup.
  destruct (bool_decide (k = "__proto__") && bool_decide (o !! k = None))
    eqn:E; [|done].
  apply andb_true_iff in E as [E1 E2].
  apply bool_decide_eq_true in E1. apply bool_decide_eq_true in E2.
  destruct H as [H|[x H]]; [done|congruence].
Qed.

Lemma js_set_lookup_ext {A : Type} (o o' : gmap string A) k v :
  o !! k = o' !! k → js_set o k v !! k = js_set o' k v !! k.
Proof. intros H. by rewrite !js_set_lookup, H. Qed.

Lemma dom_js_set {A : Type} (o : gmap string A) k v :
  dom o ⊆ dom (js_set o k v) ∧ dom (js_set o k v) ⊆ dom o ∪ {[k]}.
Proof.
  unfold js_set. destruct (_ && _).
  - split; [done|]. apply union_subseteq_l.
  - rewrite dom_insert_L. split; [apply union_subseteq_r|].
    by rewrite (comm_L (∪)).
Qed.

(** ** The loop of setState on an enumeration without repeated keys *)

Section loop.
Context (deps : gmap string bool).

Implicit Types (st : gmap string value) (l : list (string * value)).

Lemma js_get_js_set_ne st k k' v :
  k' ≠ k → js_get (js_set st k' v) k = js_get st k.
Proof. intros Hne. unfold js_get. by rewrite js_set_lookup_ne. Qed.

Lemma setState_body_other st b k' v' k :
  k' ≠ k →
  (setState_body deps (st, b) (k', v')).1 !! k = st !! k
  ∧ js_get (setState_body deps (st, b) (k', v')).1 k = js_get st k.
Proof.
  intros Hne. unfold setState_body.
  destruct (strict_neq (js_get st k') v'); simpl; [|done].
  split; [by rewrite js_set_lookup_ne | by apply js_get_js_set_ne].
Qed.

Lemma loop_lookup_other l st b k :
  k ∉ l.*1 → (foldl (setState_body deps) (st, b) l).1 !! k = st !! k.
Proof.
  revert st b. induction l as [|[k' v'] l IH]; intros st b Hk; [done|].
  rewrite fmap_cons, not_elem_of_cons in Hk. destruct Hk as [Hne Hk].
  cbn [foldl].
  destruct (setState_body deps (st, b) (k', v')) as [st1 b1] eqn:E.
  rewrite IH by done.
  pose proof (setState_body_other st b k' v' k (not_eq_sym Hne)) as [H _].
  by rewrite E in H.
Qed.

Lemma loop_lookup_entry l st b k v :
  NoDup l.*1 → (k, v) ∈ l →
  (foldl (setState_body deps) (st, b) l).1 !! k
  = if strict_neq (js_get st k) v then js_set st k v !! k else st !! k.
Proof.
  revert st b. induction l as [|[k' v'] l IH]; intros st b Hnd Hin.
  { by apply elem_of_nil in Hin. }
  rewrite fmap_cons in Hnd. apply NoDup_cons in Hnd as [Hk' Hnd].
  apply elem_of_cons in Hin as [Heq|Hin]; cbn [foldl].
  - inversion Heq; subst k' v'. clear Heq.
    destruct (setState_body deps (st, b) (k, v)) as [st1 b1] eqn:E.
    rewrite loop_lookup_other by done.
    unfold setState_body in E.
    destruct (strict_neq (js_get st k) v); inversion E; subst; done.
  - assert (k' ≠ k) as Hne.
    { intros ->. apply Hk'. apply list_elem_of_fmap. by exists (k, v). }
    destruct (setState_body deps (st, b) (k', v')) as [st1 b1] eqn:E.
    rewrite (IH st1 b1) by done.
    pose proof (setState_body_other st b k' v' k Hne) as [H1 H2].
    rewrite E in H1, H2. simpl in H1, H2.
    by rewrite H2, H1, (js_set_lookup_ext st1 st k v H1).
Qed.

Lemma loop_flag l st b :
  NoDup l.*1 →
  (foldl (setState_body deps) (st, b) l).2 = true
  ↔ b = true
    ∨ ∃ k v, (k, v) ∈ l ∧ strict_neq (js_get st k) v = true
             ∧ truthy (dep_get deps k) = true.
Proof.
  revert st b. induction l as [|[k' v'] l IH]; intros st b Hnd.
  { simpl. split; [by left|]. intros [?|(k & v & Hin & _)]; [done|].
    by apply elem_of_nil in Hin. }
  rewrite fmap_cons in Hnd. apply NoDup_cons in Hnd as [Hk' Hnd].
  cbn [foldl].
  destruct (setState_body deps (st, b) (k', v')) as [st1 b1] eqn:E.
  rewrite (IH st1 b1) by done.
  assert (∀ k v, (k, v) ∈ l → js_get st1 k = js_get st k) as Hsame.
  { intros k v Hin.
    assert (k' ≠ k) as Hne.
    { intros ->. apply Hk'. apply list_elem_of_fmap. by exists (k, v). }
    pose proof (setState_body_other st b k' v' k Hne) as [_ H2].
    by rewrite E in H2. }
  unfold setState_body in E. split.
  - intros [Hb1|(k & v & Hin & Hch & Htr)].
    + destruct (strict_neq (js_get st k') v') eqn:Hch'.
      * destruct (truthy (dep_get deps k')) eqn:Htr'.
        -- right. exists k', v'. split_and!; [apply elem_of_cons; by left|done..].
        -- inversion E; subst. by left.
      * inversion E; subst. by left.
    + right. exists k, v. split_and!; [apply elem_of_cons; by right| |done].
      by rewrite <-(Hsame k v Hin).
  - intros [Hb|(k & v & Hin & Hch & Htr)].
    + left. subst b.
      destruct (strict_neq (js_get st k') v'); inversion E; subst;
        by destruct (truthy (dep_get deps k')).
    + apply elem_of_cons in Hin as [Heq|Hin].
      * inversion Heq; subst k' v'. left.
        rewrite Hch, Htr in E. by inversion E.
      * right. exists k, v. split_and!; [done| |done].
        by rewrite (Hsame k v Hin).
Qed.

(** The order in which [for ... in] yields the keys is immaterial. *)
Lemma setState_loop_Permutation st l l' :
  NoDup l.*1 → l ≡ₚ l' →
  setState_loop deps st l = setState_loop deps st l'.
Proof.
  intros Hnd Hp. unfold setState_loop.
  assert (NoDup l'.*1) as Hnd' by (by rewrite <-Hp).
  destruct (foldl (setState_body deps) (st, false) l) as [s1 b1] eqn:E1.
  destruct (foldl (setState_body deps) (st, false) l') as [s2 b2] eqn:E2.
  f_equal.
  - apply map_eq. intros k.
    change s1 with (s1, b1).1. change s2 with (s2, b2).1.
    rewrite <-E1, <-E2.
    destruct (decide (k ∈ l.*1)) as [Hin|Hout].
    + apply list_elem_of_fmap in Hin as ([k0 v] & -> & Hin). simpl.
      rewrite (loop_lookup_entry l st false k0 v) by done.
      rewrite (loop_lookup_entry l' st false k0 v); [done..|by rewrite <-Hp].
    + rewrite !loop_lookup_other; [done| by rewrite <-Hp | done].
  - change b1 with (s1, b1).2. change b2 with (s2, b2).2.
    rewrite <-E1, <-E2. apply eq_bool_prop_intro.
    rewrite !Is_true_true, !loop_flag by done.
    by setoid_rewrite Hp.
Qed.
End loop.

(** ** What one call of setState does *)

Lemma for_in_keys (o : gmap string value) k :
  k ∈ (for_in o).*1 ↔ is_Some (o !! k).
Proof.
  unfold for_in. rewrite list_elem_of_fmap. split.
  - intros ([k' v] & -> & Hin). apply elem_of_map_to_list in Hin. by exists v.
  - intros [v Hv]. exists (k, v). split; [done|]. by apply elem_of_map_to_list.
Qed.

Lemma for_in_NoDup (o : gmap string value) : NoDup (for_in o).*1.
Proof. apply NoDup_fst_map_to_list. Qed.

Lemma dep_get_own deps k b : deps !! k = Some b → dep_get deps k = VBool b.
Proof. intros H. unfold dep_get, js_get. by rewrite lookup_fmap, H. Qed.

Lemma dep_get_inherited deps k :
  deps !! k = None → dep_get deps k = default VUndefined (Object_prototype !! k).
Proof. intros H. unfold dep_get, js_get. by rewrite lookup_fmap, H. Qed.

Lemma setState_stateDependenciesRef p c :
  stateDependenciesRef (setState p c) = stateDependenciesRef c.
Proof. unfold setState. by destruct (setState_loop _ _ _). Qed.

Lemma setState_unmounted p c : unmounted (setState p c) = unmounted c.
Proof. unfold setState. by destruct (setState_loop _ _ _). Qed.

Lemma setState_stateRef p c :
  stateRef (setState p c)
  = (setState_loop (stateDependenciesRef c) (stateRef c) (for_in p)).1.
Proof. unfold setState. by destruct (setState_loop _ _ _). Qed.

Lemma setState_rerenders p c :
  rerenders (setState p c)
  = if (setState_loop (stateDependenciesRef c) (stateRef c) (for_in p)).2
       && negb (unmounted c)
    then S (rerenders c) else rerenders c.
Proof. unfold setState. by destruct (setState_loop _ _ _). Qed.

Lemma setState_loop_lookup deps st p k :
  (setState_loop deps st (for_in p)).1 !! k
  = match p !! k with
    | Some v =>
        if strict_neq (js_get st k) v then js_set st k v !! k else st !! k
    | None => st !! k
    end.
Proof.
  unfold setState_loop. destruct (p !! k) as [v|] eqn:Hp.
  - apply loop_lookup_entry; [apply for_in_NoDup|].
    by apply elem_of_map_to_list.
  - apply loop_lookup_other. rewrite for_in_keys, Hp. by intros [? ?].
Qed.

Lemma setState_loop_flag deps st p :
  (setState_loop deps st (for_in p)).2 = true ↔ notify_worthy st deps p.
Proof.
  unfold setState_loop, notify_worthy.
  rewrite loop_flag by apply for_in_NoDup. split.
  - intros [?|(k & v & Hin & ?)]; [done|].
    exists k, v. split; [|done]. by apply elem_of_map_to_list.
  - intros (k & v & Hp & ?). right. exists k, v.
    split; [|done]. by apply elem_of_map_to_list.
Qed.

Lemma setState_lookup p c k :
  stateRef (setState p c) !! k
  = match p !! k with
    | Some v =>
        if strict_neq (js_get (stateRef c) k) v
        then js_set (stateRef c) k v !! k
        else stateRef c !! k
    | None => stateRef c !! k
    end.
Proof. rewrite setState_stateRef. apply setState_loop_lookup. Qed.

Lemma setState_lookup_written p c k v :
  p !! k = Some v →
  strict_neq (js_get (stateRef c) k) v = true →
  k ≠ "__proto__" ∨ is_Some (stateRef c !! k) →
  stateRef (setState p c) !! k = Some v.
Proof.
  intros Hp Hch Hk. rewrite setState_lookup, Hp, Hch.
  by apply js_set_lookup_own.
Qed.

Lemma tracked_change_notify_worthy st deps p :
  tracked_change st deps p → notify_worthy st deps p.
Proof.
  intros (k & v & Hp & Hd & Hch). exists k, v.
  by rewrite (dep_get_own _ _ _ Hd).
Qed.

Lemma no_inherited_key_spec deps p k :
  no_inherited_key deps p = true → is_Some (p !! k) → deps !! k = None →
  Object_prototype !! k = None.
Proof.
  unfold no_inherited_key. rewrite forallb_forall. intros Hall [v Hp] Hd.
  specialize (Hall (k, v)). rewrite <-list_elem_of_In in Hall.
  unfold for_in in Hall. rewrite elem_of_map_to_list in Hall.
  specialize (Hall Hp). unfold inherited_key in Hall. simpl in Hall.
  rewrite Hd in Hall. by destruct (Object_prototype !! k).
Qed.

Lemma notify_worthy_tracked_change st deps p :
  no_inherited_key deps p = true →
  notify_worthy st deps p → tracked_change st deps p.
Proof.
  intros Hno (k & v & Hp & Hch & Htr). exists k, v. split_and!; [done| |done].
  destruct (deps !! k) as [b|] eqn:Hd.
  - rewrite (dep_get_own _ _ _ Hd) in Htr. simpl in Htr. by subst b.
  - rewrite dep_get_inherited in Htr by done.
    rewrite (no_inherited_key_spec deps p k) in Htr by (by rewrite ?Hp). done.
Qed.

Lemma setState_rerenders_cases p c :
  (unmounted c = false ∧ notify_worthy (stateRef c) (stateDependenciesRef c) p
   ∧ rerenders (setState p c) = S (rerenders c))
  ∨ (¬ (unmounted c = false
        ∧ notify_worthy (stateRef c) (stateDependenciesRef c) p)
     ∧ rerenders (setState p c) = rerenders c).
Proof.
  rewrite setState_rerenders.
  destruct (setState_loop _ _ _).2 eqn:Hf.
  - apply setState_loop_flag in Hf. destruct (unmounted c); simpl.
    + right. split; [by intros [? _]|done].
    + by left.
  - right. split; [|done]. intros [_ Hn].
    apply setState_loop_flag in Hn. congruence.
Qed.

(** ** The two variants run the same loop *)

Lemma ExternalRef_setState_loop_foldl deps l st b :
  ExternalRef.setState_loop deps l st b = foldl (setState_body deps) (st, b) l.
Proof.
  revert st b. induction l as [|[k v] l IH]; intros st b; [done|].
  cbn [ExternalRef.setState_loop foldl]. unfold setState_body at 2.
  destruct (strict_neq (js_get st k) v); apply IH.
Qed.

Lemma ExternalRef_setState_container u p st deps n :
  let h := ExternalRef.setState u p (ExternalRef.Hook st deps n) in
  let c := setState p (Container st deps u n) in
  ExternalRef.stateRef h = stateRef c
  ∧ ExternalRef.stateDependenciesRef h = stateDependenciesRef c
  ∧ ExternalRef.rerenders h = rerenders c.
Proof.
  unfold ExternalRef.setState, setState, setState_loop. simpl.
  rewrite ExternalRef_setState_loop_foldl.
  by destruct (foldl _ _ _).
Qed.

(** ** Construction *)

Lemma foldl_insert_false_lookup (l : list string) (acc : gmap string bool) k :
  foldl (λ prev curr, <[curr := false]> prev) acc l !! k
  = if decide (k ∈ l) then Some false else acc !! k.
Proof.
  revert acc. induction l as [|k' l IH]; intros acc; cbn [foldl].
  { case_decide as H; [by apply elem_of_nil in H|done]. }
  rewrite IH. destruct (decide (k ∈ l)) as [Hin|Hout].
  - rewrite decide_True; [done|]. apply elem_of_cons. by right.
  - destruct (decide (k = k')) as [->|Hne].
    + rewrite lookup_insert_eq, decide_True; [done|]. apply elem_of_cons. by left.
    + rewrite lookup_insert_ne by done. rewrite decide_False; [done|].
      rewrite elem_of_cons. by intros [?|?].
Qed.

Lemma initial_dependencies_lookup init k :
  initial_dependencies init !! k = (λ _, false) <$> init !! k.
Proof.
  unfold initial_dependencies. rewrite foldl_insert_false_lookup, lookup_empty.
  change (Object_keys init) with (for_in init).*1.
  case_decide as H; rewrite for_in_keys in H.
  - destruct H as [v ->]. done.
  - destruct (init !! k) eqn:E; [|done]. destruct H. by eexists.
Qed.

Lemma foldl_js_set_false_lookup (l : list (string * value))
    (acc : gmap string bool) k :
  acc !! "__proto__" = None →
  foldl (λ deps kv, js_set deps kv.1 false) acc l !! k
  = if bool_decide (k = "__proto__") then None
    else if decide (k ∈ l.*1) then Some false else acc !! k.
Proof.
  revert acc. induction l as [|[k' v'] l IH]; intros acc Hacc;
    cbn [foldl fst].
  { case_bool_decide as Hk; [by subst k|].
    case_decide as H; [by apply elem_of_nil in H|done]. }
  assert (js_set acc k' false !! "__proto__" = None) as Hacc'.
  { destruct (decide (k' = "__proto__")) as [->|Hne].
    - rewrite js_set_lookup. by rewrite !bool_decide_eq_true_2.
    - by rewrite js_set_lookup_ne. }
  rewrite (IH _ Hacc'). case_bool_decide as Hk; [done|].
  rewrite fmap_cons. cbn [fst].
  destruct (decide (k ∈ l.*1)) as [Hin|Hout].
  - rewrite decide_True; [done|]. apply elem_of_cons. by right.
  - destruct (decide (k = k')) as [<-|Hne].
    + rewrite decide_True by (apply elem_of_cons; by left).
      apply js_set_lookup_own. by left.
    + rewrite decide_False by (rewrite elem_of_cons; by intros [?|?]).
      by apply js_set_lookup_ne.
Qed.

Lemma initStateDepsRef_lookup state k :
  ExternalRef.initStateDepsRef state !! k
  = if bool_decide (k = "__proto__") then None
    else (λ _, false) <$> state !! k.
Proof.
  unfold ExternalRef.initStateDepsRef.
  rewrite foldl_js_set_false_lookup by apply lookup_empty.
  case_bool_decide as Hk; [done|]. rewrite lookup_empty.
  case_decide as H; rewrite for_in_keys in H.
  - destruct H as [v ->]. done.
  - destruct (state !! k) eqn:E; [|done]. destruct H. by eexists.
Qed.

Lemma dom_initial_dependencies init :
  dom (initial_dependencies init) = dom init.
Proof.
  apply set_eq. intros k. rewrite !elem_of_dom, initial_dependencies_lookup.
  by rewrite fmap_is_Some.
Qed.

(** ** Signalling *)

(** C1, as the code has it.  For every call [setState(payload)] whose
    payload has no key that is missing from the dependency flags and named
    like a property of [Object.prototype]: [rerender] is called exactly
    once if and only if the hook is not unmounted and some key of the
    payload has its dependency flag set and a payload value that is [!==]
    to the value stored under that key before the call; in every other
    case it is not called; it is never called twice by one call, however
    many tracked fields changed.  The same holds of the variant that is
    handed [unmountedRef]. *)
Theorem setState_signals_once_iff_tracked_change
    (st : gmap string value) (deps : gmap string bool) (u : bool) (n : nat)
    (payload : gmap string value) :
  no_inherited_key deps payload = true →
  let c := Container st deps u n in
  let h := ExternalRef.Hook st deps n in
  (rerenders (setState payload c) = S n
     ↔ u = false ∧ tracked_change st deps payload)
  ∧ (¬ (u = false ∧ tracked_change st deps payload)
     → rerenders (setState payload c) = n)
  ∧ (ExternalRef.rerenders (ExternalRef.setState u payload h) = S n
     ↔ u = false ∧ tracked_change st deps payload)
  ∧ (¬ (u = false ∧ tracked_change st deps payload)
     → ExternalRef.rerenders (ExternalRef.setState u payload h) = n).
Proof.
  intros Hno c h. subst h.
  destruct (ExternalRef_setState_container u payload st deps n)
    as (_ & _ & ->). fold c.
  assert ((rerenders (setState payload c) = S n
           ↔ u = false ∧ tracked_change st deps payload)
          ∧ (¬ (u = false ∧ tracked_change st deps payload)
             → rerenders (setState payload c) = n)) as [H1 H2];
    [|by split_and!].
  destruct (setState_rerenders_cases payload c)
    as [(Hu & Hn & Hr)|[Hnot Hr]]; simpl in *.
  - apply notify_worthy_tracked_change in Hn; [|done].
    split; [by rewrite Hr|]. intros []. by split.
  - rewrite Hr. split.
    + split; [lia|]. intros [? Ht]. destruct Hnot.
      split; [done|]. by apply tracked_change_notify_worthy.
    + done.
Qed.

Lemma setState_signals_once_iff_tracked_change_witness :
  let st := data_length 1 1 in
  let deps := <["length" := true]> (initial_dependencies st) in
  let payload := data_length 2 0 in
  no_inherited_key deps payload = true
  ∧ rerenders (setState payload (Container st deps false 0)) = 1
  ∧ tracked_change st deps payload.
Proof.
  assert (no_inherited_key
            (<["length" := true]> (initial_dependencies (data_length 1 1)))
            (data_length 2 0) = true) as Hno by (vm_compute; reflexivity).
  destruct (setState_signals_once_iff_tracked_change
              (data_length 1 1)
              (<["length" := true]> (initial_dependencies (data_length 1 1)))
              false 0 (data_length 2 0) Hno) as ([Hto _] & _).
  split; [exact Hno|]. split; [vm_compute; reflexivity|].
  apply Hto. vm_compute. reflexivity.
Defined.

(** C1 as worded fails: a payload key that is no field at all, but is named
    like a property every plain object inherits, makes [deps[k]] truthy.
    [rerender] is called although no key of the payload has a dependency
    flag. *)
Lemma setState_signals_on_inherited_key :
  let c := useStateWithDeps {["a" := VNum 1]} in
  let payload : gmap string value := {["constructor" := VNum 1]} in
  rerenders (setState payload c) = S (rerenders c)
  ∧ ¬ (unmounted c = false
       ∧ tracked_change (stateRef c) (stateDependenciesRef c) payload).
Proof.
  split; [vm_compute; reflexivity|].
  intros [_ (k & v & _ & Hd & _)]. simpl in Hd.
  rewrite initial_dependencies_lookup in Hd.
  by destruct ({["a" := VNum 1]} !! k).
Qed.

(** ** After the unmount *)

Lemma perform_unmounted c o :
  unmounted c = true →
  unmounted (perform c o) = true ∧ rerenders (perform c o) = rerenders c.
Proof.
  intros Hu. destruct o as [f|p|]; simpl; [done| |done].
  rewrite setState_unmounted, setState_rerenders, Hu.
  by rewrite andb_false_r.
Qed.

Lemma run_unmounted ops c :
  unmounted c = true →
  unmounted (run ops c) = true ∧ rerenders (run ops c) = rerenders c.
Proof.
  revert c. induction ops as [|o ops IH]; intros c Hu; [done|].
  unfold run. cbn [foldl]. fold (run ops (perform c o)).
  destruct (perform_unmounted c o Hu) as [Hu' Hr'].
  destruct (IH _ Hu') as [? ?]. split; [done|congruence].
Qed.

(** C2.  Once [unmounted.current] has been set, whatever is done to the
    container afterwards, [rerender] is not called again: not by any of
    the later operations, and not by one more [setState].  That
    [setState] leaves the very state the same call leaves on a mounted
    hook; as long as no payload hands an object or [null] to the setter of
    [__proto__], it writes every payload value that is [!==] to the stored
    one under its key (the key [__proto__] excepted where the state has no
    such own key: the inherited setter takes the value).  For the variant
    that is handed [unmountedRef], a call made while the ref holds [true]
    never calls [rerender] and writes the state as a call made while it
    holds [false]. *)
Theorem setState_after_unmount_writes_without_signal
    (c : container) (ops : list operation) (payload : gmap string value)
    (h : ExternalRef.hook) :
  let c' := run ops (unmount c) in
  unmounted c' = true
  ∧ rerenders c' = rerenders c
  ∧ rerenders (setState payload c') = rerenders c
  ∧ stateRef (setState payload c')
    = stateRef (setState payload
        (Container (stateRef c') (stateDependenciesRef c') false (rerenders c')))
  ∧ (forallb keeps_prototype ops = true →
     no_prototype_write payload = true →
     ∀ k v, payload !! k = Some v →
       strict_neq (js_get (stateRef c') k) v = true →
       k ≠ "__proto__" ∨ is_Some (stateRef c' !! k) →
       stateRef (setState payload c') !! k = Some v)
  ∧ ExternalRef.rerenders (ExternalRef.setState true payload h)
    = ExternalRef.rerenders h
  ∧ ExternalRef.stateRef (ExternalRef.setState true payload h)
    = ExternalRef.stateRef (ExternalRef.setState false payload h)
  ∧ (no_prototype_write payload = true →
     ∀ k v, payload !! k = Some v →
       strict_neq (js_get (ExternalRef.stateRef h) k) v = true →
       k ≠ "__proto__" ∨ is_Some (ExternalRef.stateRef h !! k) →
       ExternalRef.stateRef (ExternalRef.setState true payload h) !! k
       = Some v).
Proof.
  intros c'.
  destruct (run_unmounted ops (unmount c) eq_refl) as [Hu Hr].
  fold c' in Hu, Hr. simpl in Hr.
  split_and!; [done..| | | | | |].
  - by rewrite setState_rerenders, Hu, andb_false_r.
  - by rewrite !setState_stateRef.
  - intros _ _ k v Hp Hch Hk. by apply setState_lookup_written.
  - destruct h as [st deps n].
    destruct (ExternalRef_setState_container true payload st deps n)
      as (_ & _ & ->).
    by rewrite setState_rerenders, andb_false_r.
  - destruct h as [st deps n].
    destruct (ExternalRef_setState_container true payload st deps n)
      as (-> & _ & _).
    destruct (ExternalRef_setState_container false payload st deps n)
      as (-> & _ & _).
    by rewrite !setState_stateRef.
  - intros _ k v Hp Hch Hk. destruct h as [st deps n].
    destruct (ExternalRef_setState_container true payload st deps n)
      as (-> & _ & _).
    by apply setState_lookup_written.
Qed.

(** ** The dependency flags *)

Lemma perform_keeps_flag c o f :
  stateDependenciesRef c !! f = Some true →
  stateDependenciesRef (perform c o) !! f = Some true.
Proof.
  intros Hf. destruct o as [g|p|]; simpl; [| |done].
  - destruct (decide (g = f)) as [->|Hne];
      [by rewrite lookup_insert_eq | by rewrite lookup_insert_ne].
  - by rewrite setState_stateDependenciesRef.
Qed.

Lemma run_keeps_flag ops c f :
  stateDependenciesRef c !! f = Some true →
  stateDependenciesRef (run ops c) !! f = Some true.
Proof.
  revert c. induction ops as [|o ops IH]; intros c Hf; [done|].
  unfold run. cbn [foldl]. apply IH. by apply perform_keeps_flag.
Qed.

(** C3.  A read through the getter of [f] sets the dependency flag of [f],
    and after any further reads, [setState] calls and unmount, in any
    number and order, the flag is still set. *)
Theorem dependency_flag_never_reset
    (c : container) (f : string) (ops : list operation) :
  stateDependenciesRef (getter f c).1 !! f = Some true
  ∧ stateDependenciesRef (run ops (getter f c).1) !! f = Some true.
Proof.
  assert (stateDependenciesRef (getter f c).1 !! f = Some true) as H
    by apply lookup_insert_eq.
  split; [done|]. by apply run_keeps_flag.
Qed.

(** ** The key sets *)

Lemma is_field_dom deps k : is_field deps k = true ↔ k ∈ dom deps.
Proof.
  unfold is_field. rewrite elem_of_dom. destruct (deps !! k) as [b|].
  - split; [by eexists|done].
  - split; [done|]. by intros [b Hb].
Qed.

Lemma forallb_is_field deps p :
  forallb (λ kv, is_field deps kv.1) (for_in p) = true → dom p ⊆ dom deps.
Proof.
  rewrite forallb_forall. intros Hall k Hk.
  apply elem_of_dom in Hk as [v Hv]. apply is_field_dom.
  apply (Hall (k, v)). apply list_elem_of_In. by apply elem_of_map_to_list.
Qed.

Lemma dom_setState_stateRef p c :
  dom (stateRef c) ⊆ dom (stateRef (setState p c))
  ∧ dom (stateRef (setState p c)) ⊆ dom (stateRef c) ∪ dom p.
Proof.
  split; intros k; rewrite ?elem_of_union, !elem_of_dom, setState_lookup.
  - intros Hk. destruct (p !! k) as [v|]; [|done].
    destruct (strict_neq _ _); [|done].
    rewrite js_set_lookup_own; [by eexists|by right].
  - destruct (p !! k) as [v|]; [|by left].
    destruct (strict_neq _ _); [right; by eexists|by left].
Qed.

Lemma perform_key_sets (F : gset string) c o :
  dom (stateRef c) = F → dom (stateDependenciesRef c) = F →
  within_fields (stateDependenciesRef c) o = true →
  dom (stateRef (perform c o)) = F
  ∧ dom (stateDependenciesRef (perform c o)) = F.
Proof.
  intros Hs Hd Hw. destruct o as [f|p|]; simpl in *; [| |done].
  - split; [done|]. apply is_field_dom in Hw.
    rewrite dom_insert_L, <-Hd. apply subseteq_union_1_L.
    by apply singleton_subseteq_l.
  - rewrite setState_stateDependenciesRef. split; [|done].
    apply forallb_is_field in Hw. rewrite Hd, <-Hs in Hw.
    destruct (dom_setState_stateRef p c) as [H1 H2].
    rewrite <-Hs. apply set_eq. intros k. split; [|by apply H1].
    intros Hk. apply H2, elem_of_union in Hk as [Hk|Hk]; [done|by apply Hw].
Qed.

Lemma within_fields_dom deps deps' o :
  dom deps = dom deps' → within_fields deps o = within_fields deps' o.
Proof.
  intros Hdom.
  assert (∀ k, is_field deps k = is_field deps' k) as Hf.
  { intros k. apply eq_bool_prop_intro.
    by rewrite !Is_true_true, !is_field_dom, Hdom. }
  destruct o as [f|p|]; simpl; [done| |done].
  induction (for_in p) as [|[k v] l IH]; [done|].
  cbn [forallb]. by rewrite IH, (Hf (k, v).1).
Qed.

(** C4, as the code has it.  [setState] never changes the key set of the
    dependency flags and never removes a key of the state; and as long as
    every payload has keys of the initial state only and the getters are
    those of its fields, the state and the dependency flags both keep
    exactly the keys of the initial state.  A payload key other than
    [__proto__] that the state lacks and whose value is [!==] to what the
    state gives for it is added to the state, in a call whose payload hands
    no object or [null] to the setter of [__proto__]; the dependency flags
    are not given that key. *)
Theorem key_sets_fixed_for_field_payloads
    (initialState : gmap string value) (ops : list operation) :
  forallb (within_fields (initial_dependencies initialState)) ops = true →
  let c := run ops (useStateWithDeps initialState) in
  dom (stateRef c) = dom initialState
  ∧ dom (stateDependenciesRef c) = dom initialState
  ∧ (∀ payload c0,
       dom (stateDependenciesRef (setState payload c0))
       = dom (stateDependenciesRef c0)
       ∧ dom (stateRef c0) ⊆ dom (stateRef (setState payload c0)))
  ∧ (∀ payload c0 k v,
       no_prototype_write payload = true →
       payload !! k = Some v → stateRef c0 !! k = None → k ≠ "__proto__" →
       strict_neq (js_get (stateRef c0) k) v = true →
       stateRef (setState payload c0) !! k = Some v
       ∧ stateDependenciesRef (setState payload c0) !! k
         = stateDependenciesRef c0 !! k).
Proof.
  intros Hops c.
  assert (dom (stateRef c) = dom initialState
          ∧ dom (stateDependenciesRef c) = dom initialState) as [H1 H2].
  { subst c.
    assert (dom (stateRef (useStateWithDeps initialState)) = dom initialState)
      as Hs by done.
    assert (dom (stateDependenciesRef (useStateWithDeps initialState))
            = dom initialState) as Hd by apply dom_initial_dependencies.
    revert Hs Hd. generalize (useStateWithDeps initialState).
    induction ops as [|o ops IH]; intros c0 Hs Hd; [done|].
    cbn [forallb] in Hops. apply andb_true_iff in Hops as [Ho Hops].
    unfold run. cbn [foldl]. fold (run ops (perform c0 o)).
    rewrite (within_fields_dom _ (stateDependenciesRef c0)) in Ho
      by (by rewrite dom_initial_dependencies, Hd).
    destruct (perform_key_sets _ c0 o Hs Hd Ho) as [Hs' Hd'].
    by apply IH. }
  split_and!; [done..| |].
  - intros payload c0.
    rewrite setState_stateDependenciesRef. split; [done|].
    apply dom_setState_stateRef.
  - intros payload c0 k v _ Hp _ Hk Hch.
    rewrite setState_stateDependenciesRef. split; [|done].
    apply setState_lookup_written; [done..|by left].
Qed.

Lemma key_sets_fixed_for_field_payloads_witness :
  let c := run [Read "length"; Set_ (data_length 2 5); Unmount;
                Set_ {["length" := VNum 0]}]
               (useStateWithDeps (data_length 1 1)) in
  dom (stateRef c) = dom (data_length 1 1)
  ∧ dom (stateDependenciesRef c) = dom (data_length 1 1).
Proof.
  destruct (key_sets_fixed_for_field_payloads (data_length 1 1)
              [Read "length"; Set_ (data_length 2 5); Unmount;
               Set_ {["length" := VNum 0]}])
    as (H1 & H2 & _); [vm_compute; reflexivity|].
  split; [exact H1|exact H2].
Defined.

Example setter_takes_a_primitive :
  let c := useStateWithDeps {["a" := VNum 1]} in
  let payload : gmap string value := {["__proto__" := VNum 1]} in
  stateRef (setState payload c) = stateRef c
  ∧ rerenders (setState payload c) = 1
  ∧ rerenders (setState payload (setState payload c)) = 2.
Proof. vm_compute. done. Qed.

(** C4 as worded fails: a payload key that the initial state does not have
    is written into the state, which from then on has a key the dependency
    flags lack. *)
Lemma setState_adds_unknown_key :
  let c := setState {["b" := VNum 2]} (useStateWithDeps {["a" := VNum 1]}) in
  stateRef c !! "b" = Some (VNum 2)
  ∧ stateDependenciesRef c !! "b" = None
  ∧ dom (stateRef c) ≠ dom (stateDependenciesRef c).
Proof.
  assert (stateRef (setState {["b" := VNum 2]}
            (useStateWithDeps {["a" := VNum 1]})) !! "b" = Some (VNum 2)) as H1
    by (vm_compute; reflexivity).
  assert (stateDependenciesRef (setState {["b" := VNum 2]}
            (useStateWithDeps {["a" := VNum 1]})) !! "b" = None) as H2
    by (vm_compute; reflexivity).
  split_and!; [done..|]. intros Heq.
  apply not_elem_of_dom in H2. apply H2. rewrite <-Heq.
  apply elem_of_dom. by eexists.
Qed.

(** ** What setState leaves alone *)

(** C5.  A call of [setState] changes no entry of the dependency flags
    and no field of the state that is not a key of the payload; and when
    the payload hands no object or [null] to the setter of [__proto__]
    (which would change what the state gives for the keys it lacks), it
    changes no field whose payload value is [===] to the stored value; in
    both variants. *)
Theorem setState_frame
    (payload : gmap string value) (c : container)
    (u : bool) (h : ExternalRef.hook) :
  stateDependenciesRef (setState payload c) = stateDependenciesRef c
  ∧ (∀ k, payload !! k = None →
       stateRef (setState payload c) !! k = stateRef c !! k)
  ∧ (no_prototype_write payload = true →
     ∀ k v, payload !! k = Some v →
       strict_eq (js_get (stateRef c) k) v = true →
       stateRef (setState payload c) !! k = stateRef c !! k)
  ∧ ExternalRef.stateDependenciesRef (ExternalRef.setState u payload h)
    = ExternalRef.stateDependenciesRef h
  ∧ (∀ k, payload !! k = None →
       ExternalRef.stateRef (ExternalRef.setState u payload h) !! k
       = ExternalRef.stateRef h !! k)
  ∧ (no_prototype_write payload = true →
     ∀ k v, payload !! k = Some v →
       strict_eq (js_get (ExternalRef.stateRef h) k) v = true →
       ExternalRef.stateRef (ExternalRef.setState u payload h) !! k
       = ExternalRef.stateRef h !! k).
Proof.
  assert (∀ c0 : container,
    stateDependenciesRef (setState payload c0) = stateDependenciesRef c0
    ∧ (∀ k, payload !! k = None →
         stateRef (setState payload c0) !! k = stateRef c0 !! k)
    ∧ (∀ k v, payload !! k = Some v →
         strict_eq (js_get (stateRef c0) k) v = true →
         stateRef (setState payload c0) !! k = stateRef c0 !! k)) as Hc.
  { intros c0. split_and!.
    - apply setState_stateDependenciesRef.
    - intros k Hp. by rewrite setState_lookup, Hp.
    - intros k v Hp Heq. rewrite setState_lookup, Hp.
      unfold strict_neq. by rewrite Heq. }
  destruct (Hc c) as (H1 & H2 & H3).
  split_and!; [done|done|intros _; exact H3|..];
    destruct h as [st deps n];
    destruct (ExternalRef_setState_container u payload st deps n)
      as (Hs & Hd & _);
    destruct (Hc (Container st deps u n)) as (H4 & H5 & H6); simpl in *.
  - by rewrite Hd.
  - intros k Hp. rewrite Hs. by apply H5.
  - intros _ k v Hp Heq. rewrite Hs. by apply (H6 k v).
Qed.

(** ** Reading through the getters *)

Lemma run_snoc ops o c : run (ops ++ [o]) c = perform (run ops c) o.
Proof. unfold run. by rewrite foldl_app. Qed.

Lemma run_reads fs c :
  rerenders (run (Read <$> fs) c) = rerenders c
  ∧ stateRef (run (Read <$> fs) c) = stateRef c
  ∧ ∀ g, g ∈ fs → stateDependenciesRef (run (Read <$> fs) c) !! g = Some true.
Proof.
  revert c. induction fs as [|f fs IH]; intros c.
  { split_and!; [done..|]. intros g Hg. by apply elem_of_nil in Hg. }
  rewrite fmap_cons. unfold run. cbn [foldl perform].
  fold (run (Read <$> fs) (getter f c).1).
  destruct (IH (getter f c).1) as (Hr & Hs & Hd).
  split_and!; [done..|]. intros g Hg.
  apply elem_of_cons in Hg as [->|Hg]; [|by apply Hd].
  apply run_keeps_flag, lookup_insert_eq.
Qed.

(** C6.  For a field [f] of the state holding [v]: the getter of [f] sets
    the dependency flag of [f] whatever it was, returns [v], and neither
    calls [rerender] nor touches the state; after any reads, in any number
    and order, [rerender] still has not been called, every field read has
    its flag set, and the getter of [f] still returns [v]. *)
Theorem getter_sets_flag_and_returns_stored_value
    (c : container) (f : string) (v : value) (fs : list string) :
  stateRef c !! f = Some v →
  let c' := run (Read <$> fs) c in
  stateDependenciesRef (getter f c).1 !! f = Some true
  ∧ (getter f c).2 = v
  ∧ rerenders (getter f c).1 = rerenders c
  ∧ stateRef (getter f c).1 = stateRef c
  ∧ rerenders c' = rerenders c
  ∧ (getter f c').2 = v
  ∧ (∀ g, g ∈ fs → stateDependenciesRef c' !! g = Some true).
Proof.
  intros Hf c'. destruct (run_reads fs c) as (Hr & Hs & Hd). fold c' in Hr, Hs, Hd.
  split_and!; [apply lookup_insert_eq| |done..| |done].
  - simpl. unfold js_get. by rewrite Hf.
  - simpl. unfold js_get. by rewrite Hs, Hf.
Qed.

Lemma getter_sets_flag_and_returns_stored_value_witness :
  let c := setState (data_length 2 5) (useStateWithDeps (data_length 1 1)) in
  let c' := run (Read <$> ["data"; "length"; "data"]) c in
  stateRef c !! "length" = Some (VNum 5)
  ∧ stateDependenciesRef (getter "length" c).1 !! "length" = Some true
  ∧ (getter "length" c).2 = VNum 5
  ∧ rerenders c' = 0
  ∧ (getter "length" c').2 = VNum 5.
Proof.
  assert (stateRef (setState (data_length 2 5)
            (useStateWithDeps (data_length 1 1))) !! "length"
          = Some (VNum 5)) as H by (vm_compute; reflexivity).
  destruct (getter_sets_flag_and_returns_stored_value
              (setState (data_length 2 5) (useStateWithDeps (data_length 1 1)))
              "length" (VNum 5) ["data"; "length"; "data"] H)
    as (H1 & H2 & _ & _ & H5 & H6 & _).
  split_and!; [exact H|exact H1|exact H2|exact H5|exact H6].
Defined.

(** ** Calls in sequence *)

(** C7.  In a sequence of [setState] calls made in that order on one
    container, none handing an object or [null] to the setter of
    [__proto__], the [i]-th call is [setState] applied to the container as
    the calls before it left it (the initial one when [i = 0]): its
    comparisons read the state left by the previous call, it writes on top
    of that state, and whether it calls [rerender] is decided from that
    state alone. *)
Theorem setState_calls_compose_in_order
    (c : container) (payloads : list (gmap string value))
    (i : nat) (payload : gmap string value) :
  forallb no_prototype_write payloads = true →
  payloads !! i = Some payload →
  let before := run (Set_ <$> take i payloads) c in
  let after := run (Set_ <$> take (S i) payloads) c in
  run (Set_ <$> take 0 payloads) c = c
  ∧ after = setState payload before
  ∧ (∀ k, stateRef after !! k
          = match payload !! k with
            | Some v =>
                if strict_neq (js_get (stateRef before) k) v
                then js_set (stateRef before) k v !! k
                else stateRef before !! k
            | None => stateRef before !! k
            end)
  ∧ (rerenders after = S (rerenders before)
     ↔ unmounted before = false
       ∧ notify_worthy (stateRef before) (stateDependenciesRef before) payload)
  ∧ (rerenders after = rerenders before
     ∨ rerenders after = S (rerenders before)).
Proof.
  intros _ Hi before after.
  assert (after = setState payload before) as ->.
  { subst after before. rewrite (take_S_r _ _ _ Hi), fmap_app. simpl.
    by rewrite run_snoc. }
  split_and!; [by rewrite take_0|done|intros k; apply setState_lookup|..].
  - destruct (setState_rerenders_cases payload before)
      as [(Hu & Hn & Hr)|[Hnot Hr]]; rewrite Hr.
    + done.
    + split; [lia|done].
  - destruct (setState_rerenders_cases payload before)
      as [(_ & _ & Hr)|[_ Hr]]; rewrite Hr; [by right|by left].
Qed.

Lemma setState_calls_compose_in_order_witness :
  let c := (getter "length" (useStateWithDeps (data_length 1 1))).1 in
  let payloads := [data_length 2 1; data_length 3 1; data_length 4 0] in
  payloads !! 2 = Some (data_length 4 0)
  ∧ run (Set_ <$> take 3 payloads) c
    = setState (data_length 4 0) (run (Set_ <$> take 2 payloads) c)
  ∧ rerenders (run (Set_ <$> take 2 payloads) c) = 0
  ∧ rerenders (run (Set_ <$> take 3 payloads) c) = 1.
Proof.
  destruct (setState_calls_compose_in_order
              (getter "length" (useStateWithDeps (data_length 1 1))).1
              [data_length 2 1; data_length 3 1; data_length 4 0]
              2 (data_length 4 0)) as (_ & H & _);
    [vm_compute; reflexivity|reflexivity|].
  split_and!; [reflexivity|exact H|vm_compute; reflexivity..].
Defined.

(** ** Payload keys that are not fields *)





(** C9, as the code has it.  When every key of the payload is outside the
    keys of the dependency flags and none of them is named like a property
    of [Object.prototype], [setState] does not call [rerender]; every such
    key whose value is [!==] to what the state gives for it is written into
    the state, and where the state has no such key that stored value is
    [undefined]. *)
Theorem setState_unknown_keys_merge_without_signal
    (payload : gmap string value) (c : container) :
  forallb (λ kv, negb (is_field (stateDependenciesRef c) kv.1))
    (for_in payload) = true →
  no_inherited_key (stateDependenciesRef c) payload = true →
  rerenders (setState payload c) = rerenders c
  ∧ (∀ k v, payload !! k = Some v →
       strict_neq (js_get (stateRef c) k) v = true →
       stateRef (setState payload c) !! k = Some v)
  ∧ (∀ k v, payload !! k = Some v → stateRef c !! k = None →
       js_get (stateRef c) k = VUndefined
       ∧ stateRef (setState payload c) !! k
         = if strict_neq VUndefined v then Some v else None).
Proof.
  intros Hout Hno.
  assert (∀ k v, payload !! k = Some v → stateDependenciesRef c !! k = None)
    as Hnone.
  { intros k v Hp. rewrite forallb_forall in Hout.
    specialize (Hout (k, v)). rewrite <-list_elem_of_In in Hout.
    unfold for_in in Hout. rewrite elem_of_map_to_list in Hout.
    specialize (Hout Hp). unfold is_field in Hout. simpl in Hout.
    by destruct (stateDependenciesRef c !! k). }
  assert (∀ k v, payload !! k = Some v → k ≠ "__proto__") as Hproto.
  { intros k v Hp ->.
    assert (Object_prototype !! "__proto__" = None) as H; [|discriminate H].
    apply (no_inherited_key_spec _ payload "__proto__" Hno); [by eexists|].
    by apply (Hnone _ v). }
  split_and!.
  - destruct (setState_rerenders_cases payload c)
      as [(_ & Hn & _)|[_ Hr]]; [|done].
    apply notify_worthy_tracked_change in Hn as (k & v & Hp & Hd & _); [|done].
    rewrite (Hnone k v Hp) in Hd. done.
  - intros k v Hp Hch. apply setState_lookup_written; [done..|].
    left. by apply (Hproto k v).
  - intros k v Hp Hs.
    assert (js_get (stateRef c) k = VUndefined) as Hget.
    { unfold js_get. rewrite Hs.
      rewrite (no_inherited_key_spec _ payload k Hno); [done|by eexists|].
      by apply (Hnone k v). }
    split; [done|]. rewrite setState_lookup, Hp, Hget, Hs.
    destruct (strict_neq VUndefined v); [|done].
    apply js_set_lookup_own. left. by apply (Hproto k v).
Qed.

Lemma setState_unknown_keys_merge_without_signal_witness :
  let c := (getter "length" (useStateWithDeps (data_length 1 1))).1 in
  let payload : gmap string value :=
    <["size" := VNum 3]> {["error" := VUndefined]} in
  rerenders (setState payload c) = rerenders c
  ∧ stateRef (setState payload c) !! "size" = Some (VNum 3)
  ∧ stateRef (setState payload c) !! "error" = None.
Proof.
  destruct (setState_unknown_keys_merge_without_signal
              (<["size" := VNum 3]> {["error" := VUndefined]})
              (getter "length" (useStateWithDeps (data_length 1 1))).1)
    as (H1 & _ & H3); [vm_compute; reflexivity..|].
  split_and!; [exact H1| |].
  - apply (H3 "size" (VNum 3)); vm_compute; reflexivity.
  - apply (H3 "error" VUndefined); vm_compute; reflexivity.
Defined.

(** C9 as worded fails: [toString] is no field of the state, its
    dependency-flag lookup finds the function every plain object inherits,
    and [rerender] is called. *)
Lemma setState_unknown_key_signals :
  let c := (getter "length" (useStateWithDeps (data_length 1 1))).1 in
  let payload : gmap string value := {["toString" := VStr "x"]} in
  forallb (λ kv, negb (is_field (stateDependenciesRef c) kv.1))
    (for_in payload) = true
  ∧ data_length 1 1 !! "toString" = None
  ∧ unmounted c = false
  ∧ rerenders (setState payload c) = S (rerenders c).
Proof. vm_compute. done. Qed.

(** ** The two variants *)

(** C10.  On the same state, dependency flags, unmount flag and payload,
    the [setState] of the variant that is handed [unmountedRef] and the
    [setState] of the variant that owns its ref run the same loop, leave
    the same state and the same dependency flags, and agree on whether
    [rerender] is called. *)
Theorem setState_variants_agree
    (st : gmap string value) (deps : gmap string bool) (u : bool) (n : nat)
    (payload : gmap string value) :
  let h := ExternalRef.setState u payload (ExternalRef.Hook st deps n) in
  let c := setState payload (Container st deps u n) in
  ExternalRef.setState_loop deps (for_in payload) st false
  = setState_loop deps st (for_in payload)
  ∧ ExternalRef.stateRef h = stateRef c
  ∧ ExternalRef.stateDependenciesRef h = stateDependenciesRef c
  ∧ ExternalRef.rerenders h = rerenders c
  ∧ (ExternalRef.rerenders h = S n ↔ rerenders c = S n).
Proof.
  intros h c.
  destruct (ExternalRef_setState_container u payload st deps n)
    as (Hs & Hd & Hr). fold h c in Hs, Hd, Hr.
  split_and!; [apply ExternalRef_setState_loop_foldl|done..|].
  by rewrite Hr.
Qed.

(** ** More on setState: enumeration order, disjoint and repeated payloads *)

Lemma forallb_for_in (f : string * value → bool) (o : gmap string value) :
  forallb f (for_in o) = true ↔ ∀ k v, o !! k = Some v → f (k, v) = true.
Proof.
  rewrite forallb_forall. unfold for_in. split.
  - intros H k v Hk. apply H, list_elem_of_In. by apply elem_of_map_to_list.
  - intros H [k v] Hin. apply H. by apply elem_of_map_to_list, list_elem_of_In.
Qed.

Lemma container_eq (c1 c2 : container) :
  stateRef c1 = stateRef c2 →
  stateDependenciesRef c1 = stateDependenciesRef c2 →
  unmounted c1 = unmounted c2 → rerenders c1 = rerenders c2 → c1 = c2.
Proof. destruct c1, c2. simpl. by intros -> -> -> ->. Qed.

Lemma notify_worthy_agree st st' deps p :
  (∀ k, is_Some (p !! k) → js_get st' k = js_get st k) →
  notify_worthy st' deps p ↔ notify_worthy st deps p.
Proof.
  intros Hsame.
  split; intros (k & v & Hp & Hch & Htr); exists k, v; split_and!; try done.
  - by rewrite <-Hsame by (by eexists).
  - by rewrite Hsame by (by eexists).
Qed.

Lemma setState_loop_flag_agree st st' deps p :
  (∀ k, is_Some (p !! k) → js_get st' k = js_get st k) →
  (setState_loop deps st' (for_in p)).2 = (setState_loop deps st (for_in p)).2.
Proof.
  intros Hsame. apply eq_bool_prop_intro.
  rewrite !Is_true_true, !setState_loop_flag. by apply notify_worthy_agree.
Qed.

Lemma js_get_setState_other p c k :
  p !! k = None → js_get (stateRef (setState p c)) k = js_get (stateRef c) k.
Proof. intros Hp. unfold js_get. by rewrite setState_lookup, Hp. Qed.

Lemma setState_lookup_other p c k :
  p !! k = None → stateRef (setState p c) !! k = stateRef c !! k.
Proof. intros Hp. by rewrite setState_lookup, Hp. Qed.

Lemma setState_lookup_after_other p q c k :
  q !! k = None →
  stateRef (setState p (setState q c)) !! k = stateRef (setState p c) !! k.
Proof.
  intros Hq. rewrite (setState_lookup p (setState q c)), (setState_lookup p c).
  rewrite js_get_setState_other, setState_lookup_other by done.
  destruct (p !! k) as [v|]; [|done]. destruct (strict_neq _ _); [|done].
  apply js_set_lookup_ext. by apply setState_lookup_other.
Qed.

Lemma setState_comm_disjoint p1 p2 c :
  p1 ##ₘ p2 → setState p2 (setState p1 c) = setState p1 (setState p2 c).
Proof.
  intros Hdisj.
  assert (∀ k, is_Some (p2 !! k) → p1 !! k = None) as H21.
  { intros k [v Hv]. by apply (map_disjoint_Some_r _ _ _ _ Hdisj Hv). }
  assert (∀ k, is_Some (p1 !! k) → p2 !! k = None) as H12.
  { intros k [v Hv]. by apply (map_disjoint_Some_l _ _ _ _ Hdisj Hv). }
  apply container_eq.
  - apply map_eq. intros k.
    destruct (p1 !! k) as [v1|] eqn:E1, (p2 !! k) as [v2|] eqn:E2.
    + specialize (H12 k (ltac:(by eexists))). congruence.
    + rewrite (setState_lookup_other p2 (setState p1 c)) by done.
      by rewrite (setState_lookup_after_other p1 p2).
    + rewrite (setState_lookup_other p1 (setState p2 c)) by done.
      by rewrite (setState_lookup_after_other p2 p1).
    + by rewrite !setState_lookup_other.
  - by rewrite !setState_stateDependenciesRef.
  - by rewrite !setState_unmounted.
  - rewrite !setState_rerenders, !setState_unmounted,
      !setState_stateDependenciesRef.
    rewrite (setState_loop_flag_agree (stateRef c) (stateRef (setState p1 c)))
      by (intros k Hk; apply js_get_setState_other; by apply H21).
    rewrite (setState_loop_flag_agree (stateRef c) (stateRef (setState p2 c)))
      by (intros k Hk; apply js_get_setState_other; by apply H12).
    by destruct (setState_loop _ _ (for_in p1)).2,
      (setState_loop _ _ (for_in p2)).2, (unmounted c).
Qed.

Lemma setState_unchanged p c :
  (∀ k v, p !! k = Some v → strict_eq (js_get (stateRef c) k) v = true) →
  setState p c = c.
Proof.
  intros Heq. apply container_eq.
  - apply map_eq. intros k. rewrite setState_lookup.
    destruct (p !! k) as [v|] eqn:Hp; [|done].
    unfold strict_neq. by rewrite (Heq k v Hp).
  - apply setState_stateDependenciesRef.
  - apply setState_unmounted.
  - destruct (setState_rerenders_cases p c)
      as [(_ & (k & v & Hp & Hch & _) & _)|[_ Hr]]; [|done].
    unfold strict_neq in Hch. by rewrite (Heq k v Hp) in Hch.
Qed.

Lemma strict_eq_VObj_inv x a : strict_eq x (VObj a) = true → x = VObj a.
Proof.
  destruct x; simpl; try done. intros H. by apply bool_decide_eq_true in H as ->.
Qed.

Lemma strict_eq_VNull_iff x : strict_eq x VNull = true ↔ x = VNull.
Proof. destruct x; simpl; split; done. Qed.

(** X1.  For a payload that hands no object or [null] to the setter of
    [__proto__], any enumeration of its own entries, in whatever order
    [for ... in] yields them, makes the loop of [setState] end with the same
    state and the same [shouldRerender]. *)
Theorem setState_loop_any_enumeration
    (deps : gmap string bool) (st payload : gmap string value)
    (entries : list (string * value)) :
  no_prototype_write payload = true →
  entries ≡ₚ map_to_list payload →
  setState_loop deps st entries = setState_loop deps st (for_in payload).
Proof.
  intros _ Hp. symmetry.
  apply setState_loop_Permutation; [apply for_in_NoDup|]. by rewrite Hp.
Qed.

Lemma setState_loop_any_enumeration_witness :
  setState_loop {["length" := true]} (data_length 1 1)
    [("length", VNum 5); ("data", VObj 2)]
  = setState_loop {["length" := true]} (data_length 1 1)
      (for_in (data_length 2 5))
  ∧ setState_loop {["length" := true]} (data_length 1 1)
      [("data", VObj 2); ("length", VNum 5)]
    = setState_loop {["length" := true]} (data_length 1 1)
        (for_in (data_length 2 5)).
Proof.
  split.
  - apply (setState_loop_any_enumeration {["length" := true]}
             (data_length 1 1) (data_length 2 5)); [reflexivity|].
    vm_compute. first [reflexivity | apply perm_swap].
  - apply (setState_loop_any_enumeration {["length" := true]}
             (data_length 1 1) (data_length 2 5)); [reflexivity|].
    vm_compute. first [reflexivity | apply perm_swap].
Defined.

Lemma notify_worthy_union st deps p1 p2 :
  p1 ##ₘ p2 →
  notify_worthy st deps (p1 ∪ p2)
  ↔ notify_worthy st deps p1 ∨ notify_worthy st deps p2.
Proof.
  intros Hdisj. unfold notify_worthy. split.
  - intros (k & v & Hp & H). apply lookup_union_Some in Hp; [|done].
    destruct Hp as [Hp|Hp]; [left|right]; by exists k, v.
  - intros [(k & v & Hp & H)|(k & v & Hp & H)]; exists k, v;
      (split; [|done]); apply lookup_union_Some; auto.
Qed.

(** X2.  Two [setState] calls whose payloads share no key and hand no
    object or [null] to the setter of [__proto__] can be made in either
    order: the container ends up the same, state, flags and number of
    [rerender] calls.  They leave the state that one call with both
    payloads merged leaves, with as many calls of [rerender] or one more. *)
Theorem setState_disjoint_payloads_commute
    (p1 p2 : gmap string value) (c : container) :
  no_prototype_write p1 = true → no_prototype_write p2 = true →
  p1 ##ₘ p2 →
  setState p2 (setState p1 c) = setState p1 (setState p2 c)
  ∧ stateRef (setState p2 (setState p1 c)) = stateRef (setState (p1 ∪ p2) c)
  ∧ rerenders (setState (p1 ∪ p2) c) ≤ rerenders (setState p2 (setState p1 c))
  ∧ rerenders (setState p2 (setState p1 c))
    ≤ S (rerenders (setState (p1 ∪ p2) c)).
Proof.
  intros _ _ Hdisj.
  assert (∀ k, is_Some (p2 !! k) → p1 !! k = None) as H21.
  { intros k [v Hv]. by apply (map_disjoint_Some_r _ _ _ _ Hdisj Hv). }
  split; [by apply setState_comm_disjoint|].
  assert (stateRef (setState p2 (setState p1 c))
          = stateRef (setState (p1 ∪ p2) c)) as Hst.
  { apply map_eq. intros k.
    destruct (p1 !! k) as [v1|] eqn:E1, (p2 !! k) as [v2|] eqn:E2.
    - specialize (H21 k (ltac:(by eexists))). congruence.
    - rewrite (setState_lookup_other p2 (setState p1 c)) by done.
      by rewrite !setState_lookup, lookup_union, E1, E2.
    - rewrite (setState_lookup_after_other p2 p1) by done.
      by rewrite !setState_lookup, lookup_union, E1, E2.
    - rewrite !setState_lookup_other; [done|by rewrite lookup_union, E1, E2
                                       |done..]. }
  split; [done|].
  rewrite (setState_rerenders p2), setState_unmounted,
    setState_stateDependenciesRef.
  rewrite (setState_loop_flag_agree (stateRef c) (stateRef (setState p1 c)))
    by (intros k Hk; apply js_get_setState_other; by apply H21).
  rewrite !setState_rerenders.
  assert ((setState_loop (stateDependenciesRef c) (stateRef c)
             (for_in (p1 ∪ p2))).2
          = (setState_loop (stateDependenciesRef c) (stateRef c) (for_in p1)).2
            || (setState_loop (stateDependenciesRef c) (stateRef c)
                  (for_in p2)).2) as ->.
  { apply eq_bool_prop_intro.
    rewrite !Is_true_true, orb_true_iff, !setState_loop_flag.
    by apply notify_worthy_union. }
  destruct (setState_loop _ _ (for_in p1)).2,
    (setState_loop _ _ (for_in p2)).2, (unmounted c); simpl; lia.
Qed.

Lemma setState_disjoint_payloads_commute_witness :
  let c := (getter "length" (useStateWithDeps (data_length 1 1))).1 in
  let p1 : gmap string value := {["data" := VObj 2]} in
  let p2 : gmap string value := {["length" := VNum 5]} in
  setState p2 (setState p1 c) = setState p1 (setState p2 c)
  ∧ stateRef (setState p2 (setState p1 c)) = stateRef (setState (p1 ∪ p2) c).
Proof.
  destruct (setState_disjoint_payloads_commute
              {["data" := VObj 2]} {["length" := VNum 5]}
              (getter "length" (useStateWithDeps (data_length 1 1))).1)
    as (H1 & H2 & _).
  - reflexivity.
  - reflexivity.
  - apply map_disjoint_singleton_l, lookup_singleton_ne. done.
  - split; [exact H1|exact H2].
Defined.

(** X3.  A [setState] whose every value is [===] to what the state gives
    for its key leaves the container as it is: nothing written, no
    [rerender]. *)
Theorem setState_unchanged_payload_is_noop
    (payload : gmap string value) (c : container) :
  all_unchanged (stateRef c) payload = true → setState payload c = c.
Proof.
  intros H. apply setState_unchanged. intros k v Hp.
  unfold all_unchanged in H. rewrite forallb_for_in in H. by apply (H k v).
Qed.

Lemma setState_unchanged_payload_is_noop_witness :
  let c := (getter "length" (useStateWithDeps (data_length 1 0))).1 in
  setState {["length" := VNum (-0)]} c = c.
Proof.
  apply (setState_unchanged_payload_is_noop {["length" := VNum (-0)]}).
  vm_compute. reflexivity.
Defined.

(** X4.  Repeating a [setState] whose payload holds no [NaN] and has no
    own key [__proto__] changes nothing more: the second call writes
    nothing and does not call [rerender]. *)
Theorem setState_repeated_is_noop
    (payload : gmap string value) (c : container) :
  self_equal payload = true →
  payload !! "__proto__" = None →
  setState payload (setState payload c) = setState payload c.
Proof.
  intros H Hproto. unfold self_equal in H. rewrite forallb_for_in in H.
  apply setState_unchanged. intros k v Hp. specialize (H k v Hp). simpl in H.
  assert (k ≠ "__proto__") as Hk by (intros ->; congruence).
  unfold js_get. rewrite setState_lookup, Hp.
  destruct (strict_neq (js_get (stateRef c) k) v) eqn:Hch.
  - rewrite js_set_lookup_own by (by left). done.
  - fold (js_get (stateRef c) k). unfold strict_neq in Hch.
    by apply negb_false_iff in Hch.
Qed.

Lemma setState_repeated_is_noop_witness :
  let c := (getter "length" (useStateWithDeps (data_length 1 1))).1 in
  setState (data_length 2 5) (setState (data_length 2 5) c)
  = setState (data_length 2 5) c
  ∧ rerenders (setState (data_length 2 5) c) = 1.
Proof.
  split; [|vm_compute; reflexivity].
  apply (setState_repeated_is_noop (data_length 2 5)); vm_compute; reflexivity.
Defined.

(** X5.  [NaN] never counts as unchanged: on a mounted hook whose
    dependency flag of [k] is set, every [setState({ k: NaN })] calls
    [rerender], also when the state already holds [NaN] under [k]; [n]
    such calls in a row make [n] calls of [rerender]. *)
Theorem setState_NaN_signals_every_time
    (c : container) (k : string) (n : nat) :
  stateRef c !! k = Some (VNum nan) →
  stateDependenciesRef c !! k = Some true →
  unmounted c = false →
  rerenders (run (replicate n (Set_ {[k := VNum nan]})) c) = rerenders c + n
  ∧ stateRef (run (replicate n (Set_ {[k := VNum nan]})) c) = stateRef c.
Proof.
  revert c. induction n as [|n IH]; intros c Hs Hd Hu.
  { simpl. split; [lia|done]. }
  cbn [replicate]. unfold run. cbn [foldl perform].
  fold (run (replicate n (Set_ {[k := VNum nan]}))
          (setState {[k := VNum nan]} c)).
  assert (stateRef (setState {[k := VNum nan]} c) = stateRef c) as Hst.
  { apply map_eq. intros j. rewrite setState_lookup.
    destruct (decide (j = k)) as [->|Hne].
    - rewrite lookup_singleton_eq. unfold js_get. rewrite Hs.
      cbn [strict_neq strict_eq negb]. rewrite js_set_lookup_own; [done|].
      right. by eexists.
    - by rewrite lookup_singleton_ne. }
  assert (rerenders (setState {[k := VNum nan]} c) = S (rerenders c)) as Hr.
  { destruct (setState_rerenders_cases {[k := VNum nan]} c)
      as [(_ & _ & Hr)|[Hnot _]]; [done|].
    destruct Hnot. split; [done|]. exists k, (VNum nan).
    rewrite lookup_singleton_eq. split_and!; [done| |].
    - unfold js_get. by rewrite Hs.
    - by rewrite (dep_get_own _ _ _ Hd). }
  destruct (IH (setState {[k := VNum nan]} c)) as [IH1 IH2].
  - by rewrite Hst.
  - by rewrite setState_stateDependenciesRef.
  - by rewrite setState_unmounted.
  - rewrite IH1, IH2, Hr, Hst. split; [lia|done].
Qed.

Lemma setState_NaN_signals_every_time_witness :
  let c := (getter "length" (useStateWithDeps (data_length 1 nan))).1 in
  rerenders (run (replicate 3 (Set_ {["length" := VNum nan]})) c) = 3.
Proof.
  destruct (setState_NaN_signals_every_time
              (getter "length" (useStateWithDeps (data_length 1 nan))).1
              "length" 3) as [H _]; [vm_compute; reflexivity..|].
  exact H.
Defined.

(** ** Which fields are tracked *)

Lemma run_cons o ops c : run (o :: ops) c = run ops (perform c o).
Proof. done. Qed.

Lemma run_flags ops c k :
  stateDependenciesRef (run ops c) !! k
  = if was_read k ops then Some true else stateDependenciesRef c !! k.
Proof.
  revert c. induction ops as [|o ops IH]; intros c; [done|].
  rewrite run_cons, IH. unfold was_read. cbn [existsb].
  fold (was_read k ops). destruct (was_read k ops); [by rewrite orb_true_r|].
  rewrite orb_false_r. destruct o as [f|p|]; simpl.
  - case_bool_decide as Hf.
    + subst f. apply lookup_insert_eq.
    + by rewrite lookup_insert_ne.
  - by rewrite setState_stateDependenciesRef.
  - done.
Qed.

(** X6.  After the hook is built and any reads, [setState] calls and
    unmount, the dependency flag of a key is set exactly when one of the
    getters read it; every other field of the initial state still has the
    flag [false] it was built with, and no other key has a flag. *)
Theorem tracked_fields_are_the_fields_read
    (initialState : gmap string value) (ops : list operation) (k : string) :
  stateDependenciesRef (run ops (useStateWithDeps initialState)) !! k
  = if was_read k ops then Some true
    else match initialState !! k with
         | Some _ => Some false
         | None => None
         end.
Proof.
  rewrite run_flags. simpl. rewrite initial_dependencies_lookup.
  by destruct (initialState !! k).
Qed.

Lemma run_keeps_state_keys ops c k :
  is_Some (stateRef c !! k) → is_Some (stateRef (run ops c) !! k).
Proof.
  revert c. induction ops as [|o ops IH]; intros c Hk; [done|].
  rewrite run_cons. apply IH. destruct o as [f|p|]; simpl; [done| |done].
  apply elem_of_dom. apply (proj1 (dom_setState_stateRef p c)).
  by apply elem_of_dom.
Qed.

(** X7.  Fields that no getter has read never cause a render: after any
    operations on a newly built hook, a [setState] whose payload has only
    keys of the initial state that were not read calls [rerender] zero
    times, and still writes every value that is [!==] to the stored one. *)
Theorem setState_on_unread_fields_never_signals
    (initialState : gmap string value) (ops : list operation)
    (payload : gmap string value) :
  only_unread_fields initialState ops payload = true →
  let c := run ops (useStateWithDeps initialState) in
  rerenders (setState payload c) = rerenders c
  ∧ ∀ k v, payload !! k = Some v →
      strict_neq (js_get (stateRef c) k) v = true →
      stateRef (setState payload c) !! k = Some v.
Proof.
  intros H c. unfold only_unread_fields in H. rewrite forallb_for_in in H.
  split.
  - destruct (setState_rerenders_cases payload c)
      as [(_ & (k & v & Hp & _ & Htr) & _)|[_ Hr]]; [|done].
    specialize (H k v Hp). simpl in H. apply andb_true_iff in H as [Hf Hr].
    apply negb_true_iff in Hr. unfold is_field in Hf.
    rewrite initial_dependencies_lookup in Hf.
    assert (stateDependenciesRef c !! k = Some false) as Hd.
    { subst c. rewrite run_flags, Hr. simpl.
      rewrite initial_dependencies_lookup. by destruct (initialState !! k). }
    by rewrite (dep_get_own _ _ _ Hd) in Htr.
  - intros k v Hp Hch. apply setState_lookup_written; [done..|]. right.
    subst c. apply run_keeps_state_keys. simpl.
    specialize (H k v Hp). simpl in H. apply andb_true_iff in H as [Hf _].
    unfold is_field in Hf. rewrite initial_dependencies_lookup in Hf.
    by destruct (initialState !! k).
Qed.

Lemma setState_on_unread_fields_never_signals_witness :
  let ops := [Read "length"; Set_ (data_length 2 5); Unmount] in
  let c := run ops (useStateWithDeps (data_length 1 1)) in
  rerenders (setState {["data" := VObj 3]} c) = rerenders c.
Proof.
  destruct (setState_on_unread_fields_never_signals (data_length 1 1)
              [Read "length"; Set_ (data_length 2 5); Unmount]
              {["data" := VObj 3]}) as [H _]; [vm_compute; reflexivity|].
  exact H.
Defined.

(** ** useConstant *)

Lemma useConstant_renders_set {W : Type}
    (inits : list (W → value * W)) (v : value) (w : W) :
  v ≠ VNull →
  useConstant_renders inits v w = (replicate (length inits) v, v, w).
Proof.
  intros Hv.
  assert (strict_eq v VNull = false) as Hn.
  { destruct (strict_eq v VNull) eqn:E; [|done].
    by apply strict_eq_VNull_iff in E. }
  induction inits as [|init inits IH]; [done|].
  cbn [useConstant_renders]. unfold useConstant. by rewrite Hn, IH.
Qed.

(** X8.  [useConstant] keeps the first result that is not [null].  While
    the [init]s return [null], each render finds [ref.current === null] and
    runs its own [init]; once one returns a value other than [null], every
    later render returns that same value whatever [init] it is passed, and
    none of the later [init]s is run. *)
Theorem useConstant_keeps_first_non_null_result {W : Type}
    (nulls : list (W → value * W)) (init : W → value * W)
    (inits : list (W → value * W)) (w w1 : W) (v : value) :
  Forall (λ f, ∀ w', (f w').1 = VNull) nulls →
  init (foldl (λ w' f, (f w').2) w nulls) = (v, w1) →
  v ≠ VNull →
  useConstant_renders (nulls ++ init :: inits) VNull w
  = (replicate (length nulls) VNull ++ replicate (S (length inits)) v, v, w1).
Proof.
  intros Hnulls. revert w.
  induction Hnulls as [|f nulls Hf Hnulls IH]; intros w Hi Hv.
  - simpl in Hi. cbn [app useConstant_renders]. unfold useConstant at 1.
    simpl. rewrite Hi. by rewrite useConstant_renders_set.
  - cbn [foldl] in Hi. cbn [app useConstant_renders]. unfold useConstant at 1.
    simpl. specialize (Hf w). destruct (f w) as [r w'] eqn:E.
    simpl in Hf, Hi. subst r. by rewrite (IH w' Hi Hv).
Qed.

Lemma useConstant_keeps_first_non_null_result_witness :
  useConstant_renders
    [(λ n : nat, (VNull, S n)); (λ n, (VNull, S n)); (λ n, (VObj 7, S n));
     (λ n, (VObj 8, S n)); (λ n, (VNull, S n))]
    VNull 0
  = ([VNull; VNull; VObj 7; VObj 7; VObj 7], VObj 7, 3).
Proof.
  apply (useConstant_keeps_first_non_null_result
           [(λ n : nat, (VNull, S n)); (λ n, (VNull, S n))]
           (λ n, (VObj 7, S n))
           [(λ n, (VObj 8, S n)); (λ n, (VNull, S n))] 0 3 (VObj 7));
    [repeat constructor|reflexivity|discriminate].
Defined.

(** ** Construction of the variant handed [unmountedRef] *)

(** X9.  The loop [for (const key in state) deps[key] = false] gives
    every key of the state the flag [false] and no other key a flag, but
    for [__proto__]: there the assignment runs the inherited setter, which
    ignores [false], so a state key of that name gets no flag.  The hook
    starts with no call of [rerender]; the flags have the keys of the state
    when [__proto__] is not among them; and when it is, a [setState] that
    changes it finds the inherited object for its flag and calls [rerender]
    unless unmounted, although nothing has read it. *)
Theorem initStateDepsRef_flags (state : gmap string value) (k : string) :
  let h := ExternalRef.useStateWithDeps state in
  ExternalRef.stateDependenciesRef h !! k
  = (if bool_decide (k = "__proto__") then None
     else match state !! k with Some _ => Some false | None => None end)
  ∧ ExternalRef.rerenders h = 0
  ∧ (state !! "__proto__" = None →
     dom (ExternalRef.stateDependenciesRef h) = dom (ExternalRef.stateRef h))
  ∧ (∀ w v u, state !! "__proto__" = Some w → strict_neq w v = true →
       ExternalRef.rerenders
         (ExternalRef.setState u {["__proto__" := v]} h)
       = if u then 0 else 1).
Proof.
  cbn zeta. unfold ExternalRef.useStateWithDeps.
  cbn [ExternalRef.stateRef ExternalRef.stateDependenciesRef
       ExternalRef.rerenders].
  split_and!.
  - rewrite initStateDepsRef_lookup. case_bool_decide; [done|].
    by destruct (state !! k).
  - done.
  - intros Hp. apply set_eq. intros j.
    rewrite !elem_of_dom, initStateDepsRef_lookup.
    case_bool_decide as Hj.
    + subst j. rewrite Hp. split; by intros [? ?].
    + by rewrite fmap_is_Some.
  - intros w v u Hw Hch.
    destruct (ExternalRef_setState_container u {["__proto__" := v]} state
                (ExternalRef.initStateDepsRef state) 0) as (_ & _ & ->).
    destruct (setState_rerenders_cases {["__proto__" := v]}
                (Container state (ExternalRef.initStateDepsRef state) u 0))
      as [(Hu & _ & Hr)|[Hnot Hr]]; cbn [unmounted rerenders stateRef
                                         stateDependenciesRef] in *.
    + by rewrite Hr, Hu.
    + rewrite Hr. destruct u; [done|]. destruct Hnot. split; [done|].
      exists "__proto__", v. split_and!.
      * apply lookup_singleton_eq.
      * unfold js_get. by rewrite Hw.
      * rewrite dep_get_inherited by (by rewrite initStateDepsRef_lookup).
        reflexivity.
Qed.

(** ** useStarterPokemon with guarded effects *)

Lemma for_in_singleton (f : string) (v : value) :
  for_in {[f := v]} = [(f, v)].
Proof. apply map_to_list_singleton. Qed.

Lemma was_read_reads k fs : was_read k (Read <$> fs) = bool_decide (k ∈ fs).
Proof.
  induction fs as [|f fs IH].
  - symmetry. apply bool_decide_eq_false_2, not_elem_of_nil.
  - rewrite fmap_cons. unfold was_read. cbn [existsb]. fold (was_read k (Read <$> fs)).
    rewrite IH. apply eq_bool_prop_intro.
    rewrite orb_True, !bool_decide_spec, elem_of_cons.
    split; (intros [->|?]; [by left|by right]).
Qed.

(** X10.  After a first render that read the fields [fs] of a newly built
    hook, the effects start a fetch for exactly the starters among [fs]:
    a pokemon the component did not read is not fetched. *)
Theorem fetches_started_for_fields_read (fs : list string) :
  StarterPokemon.fetches_started
    (run (Read <$> fs) (useStateWithDeps StarterPokemon.initialState))
  = List.filter (λ f, bool_decide (f ∈ fs)) StarterPokemon.starters.
Proof.
  unfold StarterPokemon.fetches_started.
  assert (∀ f, f ∈ StarterPokemon.starters →
            StarterPokemon.effect_fetches f
              (run (Read <$> fs) (useStateWithDeps StarterPokemon.initialState))
            = bool_decide (f ∈ fs)) as Hf.
  { intros f Hin. unfold StarterPokemon.effect_fetches.
    assert (is_Some (StarterPokemon.initialState !! f)) as [v Hv].
    { unfold StarterPokemon.starters in Hin.
      repeat (apply elem_of_cons in Hin as [->|Hin]; [by eexists|]).
      by apply elem_of_nil in Hin. }
    pose proof (run_flags (Read <$> fs)
                  (useStateWithDeps StarterPokemon.initialState) f) as Hd.
    rewrite was_read_reads in Hd. simpl in Hd.
    rewrite initial_dependencies_lookup, Hv in Hd. simpl in Hd.
    destruct (bool_decide (f ∈ fs));
      by rewrite (dep_get_own _ _ _ Hd). }
  unfold StarterPokemon.starters in *. cbn [List.filter].
  rewrite !Hf; [done|..]; repeat constructor.
Qed.

Lemma setState_singleton_unchanged f v c :
  strict_eq (js_get (stateRef c) f) v = true → setState {[f := v]} c = c.
Proof.
  intros H. apply setState_unchanged. intros k w Hk.
  apply lookup_singleton_Some in Hk as [<- <-]. done.
Qed.

Lemma settle_lookup_other f o c k :
  f ≠ k →
  stateRef (StarterPokemon.settle f o c) !! k = stateRef c !! k.
Proof.
  intros Hne. destruct o as [d|[|]]; simpl; [|done|];
    by rewrite setState_lookup, lookup_singleton_ne.
Qed.

Lemma settle_all_cons f o l c :
  StarterPokemon.settle_all ((f, o) :: l) c
  = StarterPokemon.settle_all l (StarterPokemon.settle f o c).
Proof. done. Qed.

Lemma settle_all_lookup_other l c k :
  k ∉ l.*1 →
  stateRef (StarterPokemon.settle_all l c) !! k = stateRef c !! k.
Proof.
  revert c. induction l as [|[f o] l IH]; intros c Hk; [done|].
  rewrite fmap_cons, not_elem_of_cons in Hk. destruct Hk as [Hne Hk].
  rewrite settle_all_cons, IH by done.
  apply settle_lookup_other. simpl in Hne. done.
Qed.

(** X11.  A fetch that fails changes nothing.  Whatever the first render
    read and however the fetches of the other fields ended before, when
    the fetch of a starter [f] is rejected the container stays as it is:
    after an abort the handler returns at once, and otherwise
    [setState({ f: null })] finds the initial [null] still stored, writes
    nothing and calls no [rerender]. *)
Theorem rejected_fetch_leaves_container
    (fs : list string) (l : list (string * StarterPokemon.outcome))
    (f : string) (aborted : bool) :
  f ∈ StarterPokemon.starters → f ∉ l.*1 →
  let c := StarterPokemon.settle_all l
             (run (Read <$> fs)
                (useStateWithDeps StarterPokemon.initialState)) in
  StarterPokemon.settle f (StarterPokemon.Rejected aborted) c = c.
Proof.
  intros Hf Hl c. destruct aborted; simpl; [done|].
  apply setState_singleton_unchanged. unfold js_get. subst c.
  rewrite settle_all_lookup_other by done.
  destruct (run_reads fs (useStateWithDeps StarterPokemon.initialState))
    as (_ & -> & _). simpl.
  unfold StarterPokemon.starters in Hf.
  repeat (apply elem_of_cons in Hf as [->|Hf]; [done|]).
  by apply elem_of_nil in Hf.
Qed.

Lemma rejected_fetch_leaves_container_witness :
  let c := StarterPokemon.settle_all
             [("squirtle", StarterPokemon.Resolved (VObj 7))]
             (run (Read <$> ["bulbasaur"; "squirtle"])
                (useStateWithDeps StarterPokemon.initialState)) in
  StarterPokemon.settle "bulbasaur" (StarterPokemon.Rejected false) c = c
  ∧ rerenders c = 1.
Proof.
  split; [|vm_compute; reflexivity].
  apply (rejected_fetch_leaves_container ["bulbasaur"; "squirtle"]
           [("squirtle", StarterPokemon.Resolved (VObj 7))]
           "bulbasaur" false).
  - apply (bool_decide_unpack _). vm_compute. reflexivity.
  - apply (bool_decide_unpack _). vm_compute. reflexivity.
Defined.

Lemma settle_comm f1 o1 f2 o2 c :
  f1 ≠ f2 →
  StarterPokemon.settle f2 o2 (StarterPokemon.settle f1 o1 c)
  = StarterPokemon.settle f1 o1 (StarterPokemon.settle f2 o2 c).
Proof.
  intros Hne.
  assert (∀ v1 v2 : value, ({[f1 := v1]} : gmap string value) ##ₘ {[f2 := v2]})
    as Hd by (intros; by apply map_disjoint_singleton_l, lookup_singleton_ne).
  destruct o1 as [d1|[|]], o2 as [d2|[|]]; simpl; try done;
    by apply setState_comm_disjoint.
Qed.

(** X12.  The fetches of different fields may settle in any order: the
    container they leave, state, flags and number of [rerender] calls, is
    the same. *)
Theorem settle_all_any_order
    (l l' : list (string * StarterPokemon.outcome)) (c : container) :
  NoDup l.*1 → l ≡ₚ l' →
  StarterPokemon.settle_all l c = StarterPokemon.settle_all l' c.
Proof.
  intros Hnd Hp. revert c Hnd.
  induction Hp as [|x l l' Hp IH|x y l|l l' l'' Hp1 IH1 Hp2 IH2];
    intros c Hnd.
  - done.
  - rewrite fmap_cons in Hnd. apply NoDup_cons in Hnd as [_ Hnd].
    unfold StarterPokemon.settle_all. cbn [foldl]. by apply IH.
  - rewrite !fmap_cons in Hnd. apply NoDup_cons in Hnd as [Hy _].
    unfold StarterPokemon.settle_all. cbn [foldl]. f_equal.
    apply settle_comm. intros Heq. apply Hy. rewrite Heq.
    apply elem_of_cons. by left.
  - rewrite IH1 by done. apply IH2. by rewrite <-Hp1.
Qed.

Lemma settle_all_any_order_witness :
  let c := (getter "bulbasaur"
              (useStateWithDeps StarterPokemon.initialState)).1 in
  StarterPokemon.settle_all
    [("bulbasaur", StarterPokemon.Resolved (VObj 1));
     ("squirtle", StarterPokemon.Rejected false)] c
  = StarterPokemon.settle_all
      [("squirtle", StarterPokemon.Rejected false);
       ("bulbasaur", StarterPokemon.Resolved (VObj 1))] c.
Proof.
  apply (settle_all_any_order
           [("bulbasaur", StarterPokemon.Resolved (VObj 1));
            ("squirtle", StarterPokemon.Rejected false)]
           [("squirtle", StarterPokemon.Rejected false);
            ("bulbasaur", StarterPokemon.Resolved (VObj 1))]).
  - apply (bool_decide_unpack _). vm_compute. reflexivity.
  - apply perm_swap.
Defined.

(** ** App.tsx: three fetches, one field read *)

Lemma ExternalRef_setState_singleton u f v h :
  ExternalRef.setState u {[f := v]} h
  = if strict_neq (js_get (ExternalRef.stateRef h) f) v then
      {| ExternalRef.stateRef := js_set (ExternalRef.stateRef h) f v;
         ExternalRef.stateDependenciesRef := ExternalRef.stateDependenciesRef h;
         ExternalRef.rerenders :=
           if truthy (dep_get (ExternalRef.stateDependenciesRef h) f)
              && negb u
           then S (ExternalRef.rerenders h) else ExternalRef.rerenders h |}
    else h.
Proof.
  unfold ExternalRef.setState. rewrite for_in_singleton.
  cbn [ExternalRef.setState_loop]. destruct h as [st deps r]. simpl.
  destruct (strict_neq (js_get st f) v); [|done].
  by destruct (truthy (dep_get deps f)).
Qed.

Lemma App_settle_cons s l h :
  App.settle_all (s :: l) h = App.settle_all l (App.settle s.1.1 s.1.2 s.2 h).
Proof. done. Qed.

Lemma App_settle_untracked u f o h :
  ExternalRef.stateDependenciesRef h !! f = Some false →
  f ≠ "bulbasaur" →
  ExternalRef.stateDependenciesRef (App.settle u f o h)
  = ExternalRef.stateDependenciesRef h
  ∧ ExternalRef.rerenders (App.settle u f o h) = ExternalRef.rerenders h
  ∧ ExternalRef.stateRef (App.settle u f o h) !! "bulbasaur"
    = ExternalRef.stateRef h !! "bulbasaur".
Proof.
  intros Hd Hne.
  assert (∀ v, let h' := ExternalRef.setState u {[f := v]} h in
    ExternalRef.stateDependenciesRef h' = ExternalRef.stateDependenciesRef h
    ∧ ExternalRef.rerenders h' = ExternalRef.rerenders h
    ∧ ExternalRef.stateRef h' !! "bulbasaur"
      = ExternalRef.stateRef h !! "bulbasaur") as Hset.
  { intros v h'. subst h'. rewrite ExternalRef_setState_singleton.
    destruct (strict_neq _ v); [|done]. simpl.
    rewrite (dep_get_own _ _ _ Hd). simpl.
    by rewrite js_set_lookup_ne. }
  destruct o as [d|[|]]; simpl; [apply Hset|done|apply Hset].
Qed.

Section App_flags.
Context (D : gmap string bool).
Hypothesis D_bulbasaur : D !! "bulbasaur" = Some true.
Hypothesis D_others :
  ∀ f, f ∈ StarterPokemon.starters → f ≠ "bulbasaur" → D !! f = Some false.

Lemma App_bulbasaur_arrived_other u f o :
  f ≠ "bulbasaur" → App.bulbasaur_arrived (u, f, o) = false.
Proof.
  intros Hne. destruct u; [done|]. destruct o as [d|a]; [|done].
  cbn [App.bulbasaur_arrived]. apply andb_false_iff. left.
  by apply bool_decide_eq_false_2.
Qed.

Lemma App_settle_all_others l h :
  ExternalRef.stateDependenciesRef h = D →
  "bulbasaur" ∉ l.*1.*2 →
  Forall (λ s, s.1.2 ∈ StarterPokemon.starters) l →
  ExternalRef.rerenders (App.settle_all l h) = ExternalRef.rerenders h
  ∧ existsb App.bulbasaur_arrived l = false.
Proof.
  revert h. induction l as [|[[u f] o] l IH]; intros h Hd Hb Hall.
  { split; reflexivity. }
  rewrite !fmap_cons in Hb. apply not_elem_of_cons in Hb as [Hne Hb].
  apply Forall_cons in Hall as [Hf Hall]. cbn [fst snd] in Hne, Hf.
  assert (f ≠ "bulbasaur") as Hne' by (intros ->; by apply Hne).
  rewrite App_settle_cons. cbn [fst snd existsb].
  destruct (App_settle_untracked u f o h) as (Hd' & Hr' & _).
  { rewrite Hd. by apply D_others. }
  { exact Hne'. }
  destruct (IH (App.settle u f o h)) as [IH1 IH2].
  { by rewrite Hd'. }
  { exact Hb. }
  { exact Hall. }
  rewrite IH1, Hr', IH2, App_bulbasaur_arrived_other by exact Hne'.
  split; reflexivity.
Qed.

Lemma App_settle_all_rerenders l h :
  ExternalRef.stateDependenciesRef h = D →
  ExternalRef.stateRef h !! "bulbasaur" = Some VNull →
  NoDup l.*1.*2 →
  Forall (λ s, s.1.2 ∈ StarterPokemon.starters) l →
  ExternalRef.rerenders (App.settle_all l h)
  = ExternalRef.rerenders h
    + (if existsb App.bulbasaur_arrived l then 1 else 0).
Proof.
  revert h. induction l as [|[[u f] o] l IH]; intros h Hd Hs Hnd Hall.
  { cbn [App.settle_all foldl existsb]. lia. }
  rewrite !fmap_cons in Hnd. apply NoDup_cons in Hnd as [Hf Hnd].
  apply Forall_cons in Hall as [Hin Hall]. cbn [fst snd] in Hf, Hin.
  rewrite App_settle_cons. cbn [existsb fst snd].
  destruct (decide (f = "bulbasaur")) as [->|Hne].
  - assert (ExternalRef.stateDependenciesRef (App.settle u "bulbasaur" o h)
            = D) as Hd'.
    { destruct o as [d|[|]]; cbn [App.settle]; [|exact Hd|];
        rewrite ExternalRef_setState_singleton;
        destruct (strict_neq _ _); exact Hd. }
    destruct (App_settle_all_others l (App.settle u "bulbasaur" o h))
      as [Hr Hex]; [exact Hd'|exact Hf|exact Hall|].
    rewrite Hr, Hex, orb_false_r.
    assert (dep_get (ExternalRef.stateDependenciesRef h) "bulbasaur"
            = VBool true) as Hdep.
    { rewrite Hd. by apply dep_get_own. }
    destruct o as [d|[|]]; cbn [App.settle App.bulbasaur_arrived].
    + rewrite ExternalRef_setState_singleton. unfold js_get at 1.
      rewrite Hs, Hdep. rewrite bool_decide_eq_true_2 by reflexivity.
      destruct (strict_neq VNull d), u; cbn; lia.
    + destruct u; lia.
    + rewrite ExternalRef_setState_singleton. unfold js_get at 1.
      rewrite Hs. cbn. destruct u; lia.
  - destruct (App_settle_untracked u f o h) as (Hd' & Hr' & Hs').
    { rewrite Hd. by apply D_others. }
    { exact Hne. }
    rewrite IH; [|by rewrite Hd'|by rewrite Hs'|exact Hnd|exact Hall].
    by rewrite Hr', App_bulbasaur_arrived_other.
Qed.

End App_flags.

(** X13.  [App] reads [bulbasaur] only, so of the three fetches, however
    and in whatever order they end and whenever the component unmounts,
    only one can make it render: [rerender] is called once if the fetch of
    [bulbasaur] resolved with something other than [null] while the
    component was mounted, and never otherwise. *)
Theorem App_renders_for_bulbasaur_only
    (l : list (bool * string * StarterPokemon.outcome)) :
  NoDup l.*1.*2 →
  Forall (λ s, s.1.2 ∈ StarterPokemon.starters) l →
  ExternalRef.rerenders (App.settle_all l App.first_render)
  = if existsb App.bulbasaur_arrived l then 1 else 0.
Proof.
  intros Hnd Hall.
  rewrite (App_settle_all_rerenders
             (ExternalRef.stateDependenciesRef App.first_render)).
  - reflexivity.
  - vm_compute. reflexivity.
  - intros f Hf Hne. unfold StarterPokemon.starters in Hf.
    apply elem_of_cons in Hf as [->|Hf]; [by destruct Hne|].
    apply elem_of_cons in Hf as [->|Hf]; [vm_compute; reflexivity|].
    apply elem_of_cons in Hf as [->|Hf]; [vm_compute; reflexivity|].
    by apply elem_of_nil in Hf.
  - reflexivity.
  - vm_compute. reflexivity.
  - exact Hnd.
  - exact Hall.
Qed.

Lemma App_renders_for_bulbasaur_only_witness :
  ExternalRef.rerenders
    (App.settle_all
       [(false, "squirtle", StarterPokemon.Resolved (VObj 7));
        (false, "bulbasaur", StarterPokemon.Resolved (VObj 1));
        (true, "charmander", StarterPokemon.Resolved (VObj 4))]
       App.first_render) = 1.
Proof.
  apply (App_renders_for_bulbasaur_only
           [(false, "squirtle", StarterPokemon.Resolved (VObj 7));
            (false, "bulbasaur", StarterPokemon.Resolved (VObj 1));
            (true, "charmander", StarterPokemon.Resolved (VObj 4))]).
  - apply (bool_decide_unpack _). vm_compute. reflexivity.
  - apply (bool_decide_unpack _). vm_compute. reflexivity.
Defined.

(** ** useDataWithDepsTracking *)

Lemma effect_payload_lookup (data : N) (length : float) k v :
  (<["data" := VObj data]> (<["length" := VNum length]> ∅)
     : gmap string value) !! k = Some v →
  (k = "data" ∧ v = VObj data) ∨ (k = "length" ∧ v = VNum length).
Proof.
  intros H. apply lookup_insert_Some in H as [[<- <-]|[_ H]]; [by left|].
  apply lookup_insert_Some in H as [[<- <-]|[_ H]]; [by right|].
  by rewrite lookup_empty in H.
Qed.

Lemma effect_rerenders_data_reader label c n a :
  stateDependenciesRef c !! "data" = Some true →
  unmounted c = false →
  stateRef c !! "data" = Some (VObj a) → (a < n)%N →
  let c' := (useDataWithDepsTracking_effect label (c, n)).1 in
  rerenders c' = S (rerenders c)
  ∧ stateDependenciesRef c' !! "data" = Some true
  ∧ unmounted c' = false
  ∧ stateRef c' !! "data" = Some (VObj n).
Proof.
  intros Hd Hu Hs Han. unfold useDataWithDepsTracking_effect, split.
  cbn [fst snd].
  assert (strict_neq (js_get (stateRef c) "data") (VObj n) = true) as Hch.
  { unfold js_get. rewrite Hs. unfold strict_neq. cbn [strict_eq].
    rewrite bool_decide_eq_false_2; [done|lia]. }
  split_and!.
  - match goal with |- rerenders (setState ?P c) = _ =>
      destruct (setState_rerenders_cases P c) as [(_ & _ & Hr)|[Hnot _]]
    end; [done|].
    destruct Hnot. split; [done|]. exists "data", (VObj n).
    split_and!; [apply lookup_insert_eq|done|].
    by rewrite (dep_get_own _ _ _ Hd).
  - by rewrite setState_stateDependenciesRef.
  - by rewrite setState_unmounted.
  - apply setState_lookup_written; [apply lookup_insert_eq|exact Hch|].
    left. discriminate.
Qed.

Lemma effect_unfold label c n :
  useDataWithDepsTracking_effect label (c, n)
  = (setState (<["data" := VObj n]> (<["length" := VNum (length_of label)]> ∅)) c,
     N.succ n).
Proof. reflexivity. Qed.

(** X14.  A component that reads [data] renders again after every run of
    the effect, the one after the first render included and whatever the
    labels are, equal or not: [split] returns a new array each time, which
    is [!==] to the one stored. *)
Theorem data_reader_rerenders_at_every_effect
    (label : string) (labels : list string) (next : N) :
  let mounted := useDataWithDepsTracking label next in
  let read := ((getter "data" mounted.1).1, mounted.2) in
  rerenders
    (foldl (λ cn l, useDataWithDepsTracking_effect l cn) read
       (label :: labels)).1
  = S (length labels).
Proof.
  intros mounted read.
  assert (∀ ls c n a,
    stateDependenciesRef c !! "data" = Some true →
    unmounted c = false →
    stateRef c !! "data" = Some (VObj a) → (a < n)%N →
    rerenders (foldl (λ cn l, useDataWithDepsTracking_effect l cn) (c, n) ls).1
    = rerenders c + length ls) as Hgen.
  { induction ls as [|l ls IH]; intros c n a Hd Hu Hs Han.
    { cbn [foldl fst length]. lia. }
    cbn [foldl length].
    destruct (effect_rerenders_data_reader l c n a Hd Hu Hs Han)
      as (Hr & Hd' & Hu' & Hs').
    rewrite effect_unfold in *. cbn [fst] in Hr, Hd', Hu', Hs'.
    rewrite (IH _ (N.succ n) n Hd' Hu' Hs') by lia. lia. }
  subst read mounted. unfold useDataWithDepsTracking, split. cbn [fst snd].
  rewrite (Hgen _ _ _ next).
  - reflexivity.
  - apply lookup_insert_eq.
  - reflexivity.
  - cbn [getter fst stateRef useStateWithDeps]. apply lookup_insert_eq.
  - lia.
Qed.

(** X15.  For a mounted component that reads [length] and not [data], a
    run of the effect calls [rerender] exactly when the length of the new
    label is [!==] to the stored length; either way the state gives the
    newly made array for [data] afterwards. *)
Theorem length_reader_rerenders_when_length_changes
    (label : string) (c : container) (n : N) (m : float) :
  stateDependenciesRef c !! "data" = Some false →
  stateDependenciesRef c !! "length" = Some true →
  unmounted c = false →
  stateRef c !! "length" = Some (VNum m) →
  let c' := (useDataWithDepsTracking_effect label (c, n)).1 in
  rerenders c'
  = (if strict_neq (VNum m) (VNum (length_of label))
     then S (rerenders c) else rerenders c)
  ∧ js_get (stateRef c') "data" = VObj n.
Proof.
  intros Hdd Hdl Hu Hs c'. subst c'. rewrite effect_unfold. cbn [fst].
  set (P := (<["data" := VObj n]> (<["length" := VNum (length_of label)]> ∅)
               : gmap string value)).
  assert (P !! "data" = Some (VObj n)) as HPd by apply lookup_insert_eq.
  assert (P !! "length" = Some (VNum (length_of label))) as HPl.
  { subst P. rewrite lookup_insert_ne by discriminate. apply lookup_insert_eq. }
  assert (∀ k v, P !! k = Some v →
            (k = "data" ∧ v = VObj n)
            ∨ (k = "length" ∧ v = VNum (length_of label))) as HP
    by apply effect_payload_lookup.
  clearbody P.
  assert (js_get (stateRef c) "length" = VNum m) as Hget.
  { unfold js_get. rewrite Hs. reflexivity. }
  assert (truthy (dep_get (stateDependenciesRef c) "data") = false) as Htd.
  { rewrite (dep_get_own _ _ _ Hdd). reflexivity. }
  assert (truthy (dep_get (stateDependenciesRef c) "length") = true) as Htl.
  { rewrite (dep_get_own _ _ _ Hdl). reflexivity. }
  split.
  - destruct (setState_rerenders_cases P c)
      as [(_ & (k & v & Hp & Hch & Htr) & Hr)|[Hnot Hr]]; rewrite Hr.
    + apply HP in Hp as [[Hk Hv]|[Hk Hv]]; rewrite Hk, Hv in *.
      * rewrite Htd in Htr. discriminate Htr.
      * rewrite Hget in Hch. rewrite Hch. reflexivity.
    + destruct (strict_neq (VNum m) (VNum (length_of label))) eqn:Hch;
        [|reflexivity].
      destruct Hnot. split; [exact Hu|].
      exists "length", (VNum (length_of label)).
      split; [exact HPl|]. split; [|exact Htl].
      rewrite Hget. exact Hch.
  - unfold js_get at 1. rewrite setState_lookup, HPd.
    destruct (strict_neq (js_get (stateRef c) "data") (VObj n)) eqn:E.
    + rewrite js_set_lookup_own; [reflexivity|]. left. discriminate.
    + apply negb_false_iff, strict_eq_VObj_inv in E. exact E.
Qed.

Lemma length_reader_rerenders_when_length_changes_witness :
  let mounted := useDataWithDepsTracking "12345" 0 in
  let c := (useDataWithDepsTracking_effect "12345"
              ((getter "length" mounted.1).1, mounted.2)).1 in
  let c' := (useDataWithDepsTracking_effect "54321" (c, 2%N)).1 in
  let accented := useDataWithDepsTracking "é" 0 in
  let d := (useDataWithDepsTracking_effect "é"
              ((getter "length" accented.1).1, accented.2)).1 in
  rerenders c = 1 ∧ rerenders c' = 1
  ∧ js_get (stateRef c') "data" = VObj 2
  ∧ rerenders d = 1
  ∧ rerenders (useDataWithDepsTracking_effect "ü" (d, 2%N)).1 = 1
  ∧ rerenders (useDataWithDepsTracking_effect "ab" (d, 2%N)).1 = 2.
Proof.
  destruct (length_reader_rerenders_when_length_changes "54321"
              (useDataWithDepsTracking_effect "12345"
                 ((getter "length" (useDataWithDepsTracking "12345" 0).1).1,
                  (useDataWithDepsTracking "12345" 0).2)).1
              2%N 5%float) as [H1 H2]; [vm_compute; reflexivity..|].
  destruct (length_reader_rerenders_when_length_changes "ü"
              (useDataWithDepsTracking_effect "é"
                 ((getter "length" (useDataWithDepsTracking "é" 0).1).1,
                  (useDataWithDepsTracking "é" 0).2)).1
              2%N 1%float) as [H3 _]; [vm_compute; reflexivity..|].
  destruct (length_reader_rerenders_when_length_changes "ab"
              (useDataWithDepsTracking_effect "é"
                 ((getter "length" (useDataWithDepsTracking "é" 0).1).1,
                  (useDataWithDepsTracking "é" 0).2)).1
              2%N 1%float) as [H4 _]; [vm_compute; reflexivity..|].
  split_and!; [vm_compute; reflexivity| |exact H2|vm_compute; reflexivity| |].
  - rewrite H1. vm_compute. reflexivity.
  - rewrite H3. vm_compute. reflexivity.
  - rewrite H4. vm_compute. reflexivity.
Defined.
